(** * Taper equations of timberpy: the four evaluators of
    [taper_equations_cy.pyx] and their specification

    The module is Cython: its arguments and locals have C types, and the
    development follows the C code that Cython 0.29 emits for it, compiled
    for x86-64.

    - A parameter declared [float] receives the Python float (a binary64
      number) rounded to binary32; every local declared [float] ([Z], [Z2],
      [X], [dib]) is rounded to binary32 when it is assigned.
    - [cdef int top_height = int(total_height)] and [dib_int = int(dib)]
      are C conversions to a 32-bit [int]: truncation toward zero, and
      [-2^31] for a NaN, an infinity or a value out of range.
    - An integer literal next to a floating operand is emitted as a C
      [double] literal, so [Z - 1], [Z2 - 1], [total_height - 1] and
      [1 - ...] are computed in binary64, like [sqrt], [log], [exp] and
      [x ** 0.5]; [x ** 2] on a [float] is [powf(x, 2.0)], which the
      compiler expands to [x * x]; [dbh ** b], [c ** dbh] and [Z ** b] are
      [powf] on binary32 operands.
    - No [cdivision] directive is set: every division by a non-constant
      divisor tests the divisor and raises [ZeroDivisionError] when it is
      zero; [dib / 12.0] has a constant divisor and is a plain binary64
      division.
    - [sqrt] is the correctly rounded square root of IEEE-754.  The other
      functions of the C library are parameters of the development: a
      class [Libm] collects [exp], [log], [pow] and [powf], and a theorem
      about [kozak1988_heights] or [wensel_heights] holds for every
      instance of it.

    Binary32 and binary64 arithmetic is the one of [SpecFloat], the
    specification of IEEE-754 arithmetic of the Standard Library, with
    rounding to nearest even. *)

From Stdlib Require Import ZArith Lia Reals Lra.
From Stdlib Require Import Floats.SpecFloat.
From stdpp Require Import gmap.

(** * The program *)

(** ** C [float] and [double] *)

(** A C [float] is an IEEE-754 binary32 number, a C [double] (and a Python
    [float]) a binary64 number.  Both carry a value of [spec_float], the
    specification of floating-point numbers of the Standard Library; the
    two types keep the precisions apart. *)
Record float : Type := Float { float_val : spec_float }.
Record double : Type := Double { double_val : spec_float }.

Declare Scope float_scope.
Delimit Scope float_scope with flt.
Bind Scope float_scope with float.
Declare Scope double_scope.
Delimit Scope double_scope with dbl.
Bind Scope double_scope with double.

(** Arithmetic in each format, rounded to nearest even after every
    operation. *)
Definition fadd (x y : float) : float := Float (SFadd 24 128 (float_val x) (float_val y)).
Definition fsub (x y : float) : float := Float (SFsub 24 128 (float_val x) (float_val y)).
Definition fmul (x y : float) : float := Float (SFmul 24 128 (float_val x) (float_val y)).
Definition fquot (x y : float) : float := Float (SFdiv 24 128 (float_val x) (float_val y)).
Definition flt (x y : float) : bool := SFltb (float_val x) (float_val y).

Definition dadd (x y : double) : double := Double (SFadd 53 1024 (double_val x) (double_val y)).
Definition dsub (x y : double) : double := Double (SFsub 53 1024 (double_val x) (double_val y)).
Definition dmul (x y : double) : double := Double (SFmul 53 1024 (double_val x) (double_val y)).
Definition dquot (x y : double) : double := Double (SFdiv 53 1024 (double_val x) (double_val y)).
Definition dsqrt (x : double) : double := Double (SFsqrt 53 1024 (double_val x)).

Infix "+" := fadd : float_scope.
Infix "-" := fsub : float_scope.
Infix "*" := fmul : float_scope.
Infix "<?" := flt : float_scope.
Infix "+" := dadd : double_scope.
Infix "-" := dsub : double_scope.
Infix "*" := dmul : double_scope.

(** Conversions between the formats: [(double)x] is exact, [(float)x]
    rounds (and overflows to an infinity). *)
Definition round_to (prec emax : Z) (x : spec_float) : spec_float :=
  match x with
  | S754_finite s m e => binary_round prec emax s m e
  | _ => x
  end.

Definition to_double (x : float) : double := Double (round_to 53 1024 (float_val x)).
Definition to_float (x : double) : float := Float (round_to 24 128 (double_val x)).

(** C [int] is 32 bits wide, C [long] 64 bits. *)
Definition INT_MIN : Z := (- 2 ^ 31)%Z.
Definition wrap64 (n : Z) : Z := ((n + 2 ^ 63) mod 2 ^ 64 - 2 ^ 63)%Z.

(** [(float)n] for an [int] or a [long] [n]. *)
Definition float_of_long (n : Z) : float := Float (binary_normalize 24 128 n 0 false).
Definition double_of_long (n : Z) : double := Double (binary_normalize 53 1024 n 0 false).

(** [(int)x]: truncation toward zero; a NaN, an infinity or a value out of
    the range of [int] gives [INT_MIN], the "integer indefinite" value of
    the x86-64 conversion instruction. *)
Definition c_int (x : float) : Z :=
  match float_val x with
  | S754_zero _ => 0
  | S754_finite s m e =>
      let t := Z.shiftl (Zpos m) e in
      let v := if s then (- t)%Z else t in
      if ((INT_MIN <=? v) && (v <? 2 ^ 31))%Z then v else INT_MIN
  | S754_infinity _ | S754_nan => INT_MIN
  end.

(** The test [x == 0]. *)
Definition SF_is_zero (x : spec_float) : bool :=
  match x with S754_zero _ => true | _ => false end.

(** The functions of the C library the module calls. *)
Class Libm : Type := {
  c_exp : double → double;
  c_log : double → double;
  c_pow : double → double → double;
  c_powf : float → float → float
}.

(** [powf(x, 2.0)], which the compiler expands to [x * x]; the square of a
    binary32 number is exact in binary64, so a [powf] that computes in
    binary64 returns the same number. *)
Definition fsq (x : float) : float := (x * x)%flt.

(** The constants of the source, as doubles. *)
Definition d_1 : double := Eval vm_compute in double_of_long 1.
Definition d_12 : double := Eval vm_compute in double_of_long 12.
Definition d_0_5 : double := Eval vm_compute in dquot (double_of_long 1) (double_of_long 2).
Definition d_0_001 : double := Eval vm_compute in dquot (double_of_long 1) (double_of_long 1000).

(** ** Exceptions *)

Inductive result (A : Type) : Type :=
  | Ok (a : A)
  | ZeroDivisionError.
Arguments Ok {A} a.
Arguments ZeroDivisionError {A}.

#[global] Instance result_ret : MRet result := λ A a, Ok a.
#[global] Instance result_bind : MBind result := λ A B f m,
  match m with
  | Ok a => f a
  | ZeroDivisionError => ZeroDivisionError
  end.

(** The checked divisions. *)
Definition fdiv (x y : float) : result float :=
  if SF_is_zero (float_val y) then ZeroDivisionError else Ok (fquot x y).
Definition ddiv (x y : double) : result double :=
  if SF_is_zero (double_val y) then ZeroDivisionError else Ok (dquot x y).

(** ** The profile *)

(** The list [[dib_int, dib, dib / 12.0]] stored at a height: a Python
    integer made from the C [int], and two Python floats. *)

Record dibs : Type := Dibs {
  dib_int : Z;
  dib : double;
  dib_converted : double
}.

Definition make_dibs (dib : float) : dibs :=
  {| dib_int := c_int dib;
     dib := to_double dib;
     dib_converted := dquot (to_double dib) d_12 |}.

Abbreviation profile := (gmap Z dibs).

(** [range(lo, hi)]. *)
Definition range (lo hi : Z) : list Z := seqZ lo (hi - lo).

(** The loop [for stem_height in heights: stem_heights[stem_height] = dibs],
    left as soon as an iteration raises. *)
Fixpoint for_heights (body : Z → result dibs) (heights : list Z)
    (stem_heights : profile) : result profile :=
  match heights with
  | [] => Ok stem_heights
  | stem_height :: rest =>
      ds ← body stem_height;
      for_heights body rest (<[stem_height := ds]> stem_heights)
  end.

(** ** The four evaluators *)

Section Evaluators.
Context {L : Libm}.

(** One iteration of [czaplewski_heights].  [stem_height ** 2] is computed
    on C [long]s, [total_height ** 2] is [powf]; both quotients are checked
    divisions of [float]s.  In the radicand, [Z - 1] and [Z2 - 1] are
    subtractions of the [double] constant [1.0], so the first two terms
    and the sum are [double]s, while the indicator terms are products of
    [float]s. *)
Definition czaplewski_dibs (dbh total_height a b c d e f : float)
    (stem_height : Z) : result dibs :=
  Zr ← fdiv (float_of_long stem_height) total_height;
  Z2 ← fdiv (float_of_long (wrap64 (stem_height ^ 2))) (fsq total_height);
  let I1 := Z.b2z (Zr <? a)%flt in
  let I2 := Z.b2z (Zr <? b)%flt in
  let dib :=
    to_float
      (to_double dbh
       * dsqrt ((to_double c * (to_double Zr - d_1))
                + (to_double d * (to_double Z2 - d_1))
                + to_double (e * fsq (a - Zr) * float_of_long I1)
                + to_double (f * fsq (b - Zr) * float_of_long I2))) in
  mret (make_dibs dib).

(** The call: the Python floats are converted to the [float] parameters,
    [top_height] is [int(total_height)], and the loop fills an empty
    dictionary. *)
Definition czaplewski_heights (dbh total_height a b c d e f : double) : result profile :=
  let dbh := to_float dbh in
  let total_height := to_float total_height in
  let a := to_float a in
  let b := to_float b in
  let c := to_float c in
  let d := to_float d in
  let e := to_float e in
  let f := to_float f in
  let top_height := c_int total_height in
  for_heights (czaplewski_dibs dbh total_height a b c d e f)
              (range 1 (top_height + 1)) ∅.

(** One iteration of [kozak1969_heights].  The radicand
    [a + (b * Z) + (c * Z2)] has only [float] operands and is computed in
    binary32; [sqrt] and the product by [dbh] are in binary64. *)
Definition kozak1969_dibs (dbh total_height a b c : float)
    (stem_height : Z) : result dibs :=
  Zr ← fdiv (float_of_long stem_height) total_height;
  Z2 ← fdiv (float_of_long (wrap64 (stem_height ^ 2))) (fsq total_height);
  let dib := to_float (to_double dbh * dsqrt (to_double (a + (b * Zr) + (c * Z2)))) in
  mret (make_dibs dib).

Definition kozak1969_heights (dbh total_height a b c : double) : result profile :=
  let dbh := to_float dbh in
  let total_height := to_float total_height in
  let a := to_float a in
  let b := to_float b in
  let c := to_float c in
  let top_height := c_int total_height in
  for_heights (kozak1969_dibs dbh total_height a b c)
              (range 1 (top_height + 1)) ∅.

(** One iteration of [kozak1988_heights].  [Z ** 0.5] and [d ** 0.5] are
    [pow] on [double]s, [dbh ** b] and [c ** dbh] are [powf], [Z ** 2] is
    [powf (Z, 2.0)]; the quotient of the base is a checked division of
    [double]s, [dbh / total_height] a checked division of [float]s.  In
    the exponent the products by [f], [g] and [h] have a [double] factor
    and are [double]s, the other two terms are [float]s. *)
Definition kozak1988_dibs (dbh total_height a b c d e f g h i : float)
    (stem_height : Z) : result dibs :=
  Zr ← fdiv (float_of_long stem_height) total_height;
  base ← ddiv (d_1 - c_pow (to_double Zr) d_0_5) (d_1 - c_pow (to_double d) d_0_5);
  rel ← fdiv dbh total_height;
  let dib :=
    to_float
      (to_double (a * c_powf dbh b * c_powf c dbh)
       * c_pow base
           (to_double (e * fsq Zr)
            + (to_double f * c_log (to_double Zr + d_0_001))
            + (to_double g * c_pow (to_double Zr) d_0_5)
            + (to_double h * c_exp (to_double Zr))
            + to_double (i * rel))) in
  mret (make_dibs dib).

Definition kozak1988_heights (dbh total_height a b c d e f g h i : double) : result profile :=
  let dbh := to_float dbh in
  let total_height := to_float total_height in
  let a := to_float a in
  let b := to_float b in
  let c := to_float c in
  let d := to_float d in
  let e := to_float e in
  let f := to_float f in
  let g := to_float g in
  let h := to_float h in
  let i := to_float i in
  let top_height := c_int total_height in
  for_heights (kozak1988_dibs dbh total_height a b c d e f g h i)
              (range 1 (top_height + 1)) ∅.

(** One iteration of [wensel_heights].  The divisor [total_height - 1] is
    computed in binary64 and stored in a [float] temporary before it is
    tested and used; [X] is computed in binary32; [Z ** b] is [powf];
    everything from [exp] outwards is in binary64. *)
Definition wensel_dibs (dbh total_height a b c d e : float)
    (stem_height : Z) : result dibs :=
  Zr ← fdiv (float_of_long (stem_height - 1))
            (to_float (to_double total_height - d_1));
  let X := (c + (d * dbh) + (e * total_height))%flt in
  q ← fdiv a X;
  let dib :=
    to_float
      (to_double dbh
       * (to_double a
          - (to_double X
             * c_log (d_1 - (to_double (c_powf Zr b) * (d_1 - c_exp (to_double q))))))) in
  mret (make_dibs dib).

Definition wensel_heights (dbh total_height a b c d e : double) : result profile :=
  let dbh := to_float dbh in
  let total_height := to_float total_height in
  let a := to_float a in
  let b := to_float b in
  let c := to_float c in
  let d := to_float d in
  let e := to_float e in
  let top_height := c_int total_height in
  for_heights (wensel_dibs dbh total_height a b c d e)
              (range 1 (top_height + 1)) ∅.
End Evaluators.

(** * The words of the specification *)

(** ** Values *)

(** The value of a finite number as a fraction: numerator and (positive)
    denominator. *)
Definition SF2Q (x : spec_float) : option (Z * Z) :=
  match x with
  | S754_zero _ => Some (0, 1)%Z
  | S754_finite s m e =>
      Some (cond_Zopp s (Zpos m) * 2 ^ Z.max e 0, 2 ^ Z.max (- e) 0)%Z
  | S754_infinity _ | S754_nan => None
  end.

(** [floor] and truncation toward zero of a finite number. *)
Definition SFfloor (x : spec_float) : option Z :=
  match SF2Q x with Some (n, d) => Some (n / d)%Z | None => None end.

Definition SFtrunc (x : spec_float) : option Z :=
  match SF2Q x with Some (n, d) => Some (Z.quot n d) | None => None end.

(** The real number a finite number stands for. *)
Definition B2R (x : spec_float) : R :=
  match SF2Q x with Some (n, d) => (IZR n / IZR d)%R | None => 0%R end.

Definition real_of (x : double) : R := B2R (double_val x).

Definition is_finite (x : spec_float) : bool :=
  match x with
  | S754_zero _ | S754_finite _ _ _ => true
  | S754_infinity _ | S754_nan => false
  end.

(** A NaN or an infinity. *)
Definition non_finite (x : double) : bool := negb (is_finite (double_val x)).

(** [0 < x], for a Python float. *)
Definition is_positive (x : double) : Prop := SFltb (S754_zero false) (double_val x) = true.

(** A Python float written as the decimal literal [n / d], [d] a power of
    ten: the binary64 number nearest to the quotient. *)
Definition decimal (n d : Z) : double := dquot (double_of_long n) (double_of_long d).

Definition d_0 : double := Double (S754_zero false).
Definition f_0 : float := Float (S754_zero false).
Definition f_1 : float := Eval vm_compute in float_of_long 1.

(** The conversion of a stored diameter to a 32-bit integer: the diameter
    truncated toward zero when it is finite and the truncation fits, and
    [-2^31] otherwise. *)
Definition int_of_dib (x : double) : Z :=
  match SFtrunc (double_val x) with
  | Some n => if ((INT_MIN <=? n) && (n <? 2 ^ 31))%Z then n else INT_MIN
  | None => INT_MIN
  end.

(** ** The formulas of the four models, in the arithmetic of the program *)

Section Formulas.
Context {L : Libm}.

Definition indicator (holds : bool) : float := if holds then f_1 else f_0.

(** [dib = dbh * sqrt (c*(Z-1) + d*(Z2-1) + e*(a-Z)^2*I1 + f*(b-Z)^2*I2)]
    with [Z = h / total_height], [Z2 = h^2 / total_height^2],
    [I1 = 1 if Z < a else 0], [I2 = 1 if Z < b else 0]: the two polynomial
    terms and the sum in binary64, the indicator terms in binary32. *)
Definition czaplewski_dib (dbh total_height a b c d e f : float) (h : Z) : float :=
  let Zr := fquot (float_of_long h) total_height in
  let Z2 := fquot (float_of_long (h ^ 2)) (fsq total_height) in
  let I1 := indicator (Zr <? a)%flt in
  let I2 := indicator (Zr <? b)%flt in
  to_float
    (to_double dbh
     * dsqrt (to_double c * (to_double Zr - d_1)
              + to_double d * (to_double Z2 - d_1)
              + to_double (e * fsq (a - Zr) * I1)
              + to_double (f * fsq (b - Zr) * I2))).

(** [dib = dbh * sqrt (a + b*Z + c*Z2)] with [Z = h / total_height] and
    [Z2 = h^2 / total_height^2]: the radicand in binary32. *)
Definition kozak1969_dib (dbh total_height a b c : float) (h : Z) : float :=
  let Zr := fquot (float_of_long h) total_height in
  let Z2 := fquot (float_of_long (h ^ 2)) (fsq total_height) in
  to_float (to_double dbh * dsqrt (to_double (a + b * Zr + c * Z2))).

(** The divisor [1 - d^0.5] of the Kozak-1988 model. *)
Definition kozak1988_divisor (d : float) : double :=
  d_1 - c_pow (to_double d) d_0_5.

(** [dib = (a * dbh^b * c^dbh) * ((1 - Z^0.5) / (1 - d^0.5))
            ^ (e*Z^2 + f*ln(Z + 0.001) + g*Z^0.5 + h*exp(Z) + i*(dbh/total_height))]
    with [Z = k / total_height]. *)
Definition kozak1988_dib (dbh total_height a b c d e f g h i : float) (k : Z) : float :=
  let Zr := fquot (float_of_long k) total_height in
  to_float
    (to_double (a * c_powf dbh b * c_powf c dbh)
     * c_pow (dquot (d_1 - c_pow (to_double Zr) d_0_5) (kozak1988_divisor d))
         (to_double (e * fsq Zr)
          + to_double f * c_log (to_double Zr + d_0_001)
          + to_double g * c_pow (to_double Zr) d_0_5
          + to_double h * c_exp (to_double Zr)
          + to_double (i * fquot dbh total_height))).

(** The divisor [total_height - 1] and the term [X = c + d*dbh +
    e*total_height] of the Wensel model. *)
Definition wensel_divisor (total_height : float) : float :=
  to_float (to_double total_height - d_1).

Definition wensel_X (dbh total_height c d e : float) : float :=
  (c + d * dbh + e * total_height)%flt.

(** [dib = dbh * (a - X * ln (1 - Z^b * (1 - exp (a/X))))] with
    [Z = (h - 1) / (total_height - 1)]. *)
Definition wensel_dib (dbh total_height a b c d e : float) (h : Z) : float :=
  let Zr := fquot (float_of_long (h - 1)) (wensel_divisor total_height) in
  let X := wensel_X dbh total_height c d e in
  to_float
    (to_double dbh
     * (to_double a
        - to_double X
          * c_log (d_1 - to_double (c_powf Zr b) * (d_1 - c_exp (to_double (fquot a X)))))).

End Formulas.

(** ** The formulas over the real numbers *)

Section RealFormulas.
Local Open Scope R_scope.

Definition czaplewski_formula (dbh total_height a b c d e f : R) (h : Z) : R :=
  let Zr := IZR h / total_height in
  let Z2 := IZR (h ^ 2) / total_height ^ 2 in
  let I1 := if Rlt_dec Zr a then 1 else 0 in
  let I2 := if Rlt_dec Zr b then 1 else 0 in
  dbh * sqrt (c * (Zr - 1) + d * (Z2 - 1) + e * (a - Zr) ^ 2 * I1 + f * (b - Zr) ^ 2 * I2).

Definition kozak1969_formula (dbh total_height a b c : R) (h : Z) : R :=
  let Zr := IZR h / total_height in
  let Z2 := Zr ^ 2 in
  dbh * sqrt (a + b * Zr + c * Z2).

End RealFormulas.

(** ** Profiles *)

(** The key set is exactly the integers [1 .. n]. *)
Definition keys_upto (prof : profile) (n : Z) : Prop :=
  ∀ k : Z, k ∈ dom prof ↔ (1 ≤ k ≤ n)%Z.

(** [prof] is returned by one of the four evaluators. *)
Definition produced {L : Libm} (prof : profile) : Prop :=
  (∃ dbh th a b c d e f, czaplewski_heights dbh th a b c d e f = Ok prof)
  ∨ (∃ dbh th a b c, kozak1969_heights dbh th a b c = Ok prof)
  ∨ (∃ dbh th a b c d e f g h i, kozak1988_heights dbh th a b c d e f g h i = Ok prof)
  ∨ (∃ dbh th a b c d e, wensel_heights dbh th a b c d e = Ok prof).

(** [prof] is returned by one of the four evaluators on a tree of height
    [th]. *)
Definition produced_for {L : Libm} (th : double) (prof : profile) : Prop :=
  (∃ dbh a b c d e f, czaplewski_heights dbh th a b c d e f = Ok prof)
  ∨ (∃ dbh a b c, kozak1969_heights dbh th a b c = Ok prof)
  ∨ (∃ dbh a b c d e f g h i, kozak1988_heights dbh th a b c d e f g h i = Ok prof)
  ∨ (∃ dbh a b c d e, wensel_heights dbh th a b c d e = Ok prof).

(** A call fails numerically when it raises the division fault or stores a
    non-finite diameter at some height. *)
Definition fails_numerically (r : result profile) : Prop :=
  r = ZeroDivisionError
  ∨ ∃ prof k ds, r = Ok prof ∧ prof !! k = Some ds ∧ non_finite (dib ds) = true.

(** ** A C library in miniature

    An instance of [Libm] to run the evaluators on concrete inputs.  It
    returns the exact results that C prescribes ([exp (0) = 1],
    [log (1) = 0], [pow (x, 0) = 1], [pow (1, y) = 1], [powf] of a zero),
    computes [pow] by multiplication for the exponents [1], [2] and [3]
    and as a square root for the exponent [0.5], and
    elsewhere evaluates [exp] and [log] by argument reduction and series
    in binary64, to within a few units in the last place. *)

Definition dconst (m e : Z) : double := Double (binary_normalize 53 1024 m e false).
Definition d_nan : double := Double S754_nan.
Definition d_inf (s : bool) : double := Double (S754_infinity s).

(** [ln 2] in two parts, its inverse and the square root of two. *)
Definition ln2_hi : double := Eval vm_compute in dconst 2977044471 (-32).
Definition ln2_lo : double := Eval vm_compute in dconst 3691024475790907 (-84).
Definition inv_ln2 : double := Eval vm_compute in dconst 3248660424278399 (-51).
Definition sqrt_2 : double := Eval vm_compute in dconst 6369051672525773 (-52).

(** [1 + r/1 * (1 + r/2 * (... (1 + r/k)))], the series of [exp r]. *)
Fixpoint exp_series (n : nat) (k : Z) (r acc : double) : double :=
  match n with
  | O => acc
  | S n' => exp_series n' (k - 1) r (d_1 + dquot r (double_of_long k) * acc)
  end.

(** [exp x = 2^k * exp r] with [x = k * ln 2 + r]. *)
Definition mini_exp (x : double) : double :=
  match double_val x with
  | S754_nan => x
  | S754_infinity s => if s then d_0 else x
  | S754_zero _ => d_1
  | S754_finite s _ _ =>
      let t := (x * inv_ln2)%dbl in
      let nearest := if s then (t - d_0_5)%dbl else (t + d_0_5)%dbl in
      match SFtrunc (double_val nearest) with
      | Some k =>
          if (1100 <? k)%Z then d_inf false
          else if (k <? -1100)%Z then d_0
          else
            let kd := double_of_long k in
            let r := (x - kd * ln2_hi - kd * ln2_lo)%dbl in
            (exp_series 20 20 r d_1 * dconst 1 k)%dbl
      | None => if s then d_0 else d_inf false
      end
  end.

(** [1/k + s2 * (1/(k+2) + s2 * (...))], the series of [atanh s / s]. *)
Fixpoint atanh_series (n : nat) (k : Z) (s2 acc : double) : double :=
  match n with
  | O => acc
  | S n' => atanh_series n' (k - 2) s2 (dquot d_1 (double_of_long k) + s2 * acc)
  end.

(** [log x = k * ln 2 + 2 * atanh ((f - 1) / (f + 1))] with [x = 2^k * f]
    and [f] between [sqrt 2 / 2] and [sqrt 2]. *)
Definition mini_log (x : double) : double :=
  match double_val x with
  | S754_nan => x
  | S754_infinity s => if s then d_nan else x
  | S754_zero _ => d_inf true
  | S754_finite true _ _ => d_nan
  | S754_finite false m e =>
      let d := Zdigits2 (Zpos m) in
      let f0 := dconst (Zpos m) (1 - d) in
      let big := SFltb (double_val sqrt_2) (double_val f0) in
      let f := if big then dconst (Zpos m) (- d) else f0 in
      let k := (if big then e + d else e + d - 1)%Z in
      let s := dquot (f - d_1) (f + d_1) in
      let lf := (double_of_long 2 * s * atanh_series 13 25 (s * s) d_0)%dbl in
      let kd := double_of_long k in
      (kd * ln2_hi + (lf + kd * ln2_lo))%dbl
  end.

(** An integral value and its parity. *)
Definition integral (y : spec_float) : option bool :=
  match SF2Q y with
  | Some (n, d) => if (n mod d =? 0)%Z then Some (Z.odd (n / d)) else None
  | None => None
  end.

Definition mini_pow (x y : double) : double :=
  if SF_is_zero (double_val y) then d_1
  else if SFeqb (double_val x) (double_val d_1) then d_1
  else
    match double_val x, double_val y with
    | S754_nan, _ | _, S754_nan => d_nan
    | _, _ =>
        if SFeqb (double_val y) (double_val d_1) then x
        else if SFeqb (double_val y) (double_val d_0_5) then dsqrt x
        else if SFeqb (double_val y) (double_val (double_of_long 2)) then (x * x)%dbl
        else if SFeqb (double_val y) (double_val (double_of_long 3)) then (x * x * x)%dbl
        else if SF_is_zero (double_val x) then
          if SFltb (S754_zero false) (double_val y) then d_0 else d_inf false
        else if SFltb (double_val x) (S754_zero false) then
          match integral (double_val y) with
          | Some odd =>
              let p := mini_exp (y * mini_log (Double (SFopp (double_val x)))) in
              if odd then Double (SFopp (double_val p)) else p
          | None => d_nan
          end
        else mini_exp (y * mini_log x)
    end.

Definition mini_powf (x y : float) : float :=
  to_float (mini_pow (to_double x) (to_double y)).

Definition mini_libm : Libm :=
  {| c_exp := mini_exp; c_log := mini_log; c_pow := mini_pow; c_powf := mini_powf |}.

(** * Floating-point arithmetic: the rounding function

    What follows establishes, from the definitions of [SpecFloat], the few
    facts about rounding that the evaluators rest on: a rounded result is
    never NaN and keeps its sign, it is a valid number of the format, its
    magnitude moves by at most one binary digit, and a number that fits
    the format is returned unchanged. *)

Local Open Scope Z_scope.

(** ** Binary digits *)

Lemma digits2_pos_size p : digits2_pos p = Pos.size p.
Proof. induction p; simpl; congruence. Qed.

Lemma Zdigits2_log2 m : 0 < m → Zdigits2 m = Z.log2 m + 1.
Proof.
  destruct m as [|p|p]; try lia. intros _. simpl. rewrite digits2_pos_size.
  destruct p; simpl; lia.
Qed.

Lemma Zdigits2_nonneg m : 0 <= Zdigits2 m.
Proof. destruct m; simpl; lia. Qed.

Lemma Zdigits2_pos m : 0 < m → 0 < Zdigits2 m.
Proof. destruct m; simpl; lia. Qed.

Lemma Zdigits2_spec m : 0 < m → 2 ^ (Zdigits2 m - 1) <= m < 2 ^ Zdigits2 m.
Proof.
  intros Hm. rewrite (Zdigits2_log2 m Hm).
  replace (Z.log2 m + 1 - 1) with (Z.log2 m) by lia.
  replace (Z.log2 m + 1) with (Z.succ (Z.log2 m)) by lia.
  by apply Z.log2_spec.
Qed.

Lemma Zdigits2_unique m k : 0 < k → 2 ^ (k - 1) <= m < 2 ^ k → Zdigits2 m = k.
Proof.
  intros Hk Hm.
  assert (0 < m) by (pose proof (Z.pow_pos_nonneg 2 (k - 1)); lia).
  rewrite Zdigits2_log2 by done.
  rewrite (Z.log2_unique m (k - 1)); [lia | lia |].
  replace (Z.succ (k - 1)) with k by lia. done.
Qed.

Lemma Zdigits2_le m n : 0 <= m <= n → Zdigits2 m <= Zdigits2 n.
Proof.
  intros [Hm Hmn]. destruct (Z.eq_dec m 0) as [->|]; [apply Zdigits2_nonneg|].
  rewrite !Zdigits2_log2 by lia. pose proof (Z.log2_le_mono m n Hmn). lia.
Qed.

Lemma Zdigits2_lt_pow2 m k : 0 <= m → 0 <= k → m < 2 ^ k ↔ Zdigits2 m <= k.
Proof.
  intros Hm Hk. destruct (Z.eq_dec m 0) as [->|].
  { simpl. pose proof (Z.pow_pos_nonneg 2 k). lia. }
  pose proof (Zdigits2_spec m ltac:(lia)) as [Hlo Hhi].
  pose proof (Zdigits2_pos m ltac:(lia)). split; intros H1.
  - destruct (Z_lt_le_dec k (Zdigits2 m)) as [Hlt|]; [|done].
    pose proof (Z.pow_le_mono_r 2 k (Zdigits2 m - 1)). lia.
  - pose proof (Z.pow_le_mono_r 2 (Zdigits2 m) k). lia.
Qed.

Lemma Zdigits2_mul_pow2 m k : 0 < m → 0 <= k → Zdigits2 (m * 2 ^ k) = Zdigits2 m + k.
Proof.
  intros Hm Hk. pose proof (Zdigits2_spec m Hm) as [Hlo Hhi].
  pose proof (Zdigits2_pos m Hm). pose proof (Z.pow_pos_nonneg 2 k).
  apply Zdigits2_unique; [lia|].
  replace (Zdigits2 m + k - 1) with (Zdigits2 m - 1 + k) by lia.
  rewrite !Z.pow_add_r by lia. nia.
Qed.

Lemma Zdigits2_div_pow2 m n :
  0 < m → 0 <= n < Zdigits2 m → Zdigits2 (m / 2 ^ n) = Zdigits2 m - n.
Proof.
  intros Hm Hn. pose proof (Zdigits2_spec m Hm) as [Hlo Hhi].
  pose proof (Z.pow_pos_nonneg 2 n).
  apply Zdigits2_unique; [lia|]. split.
  - apply Z.div_le_lower_bound; [lia|].
    rewrite <- Z.pow_add_r by lia. replace (n + (Zdigits2 m - n - 1)) with (Zdigits2 m - 1) by lia.
    done.
  - apply Z.div_lt_upper_bound; [lia|].
    rewrite <- Z.pow_add_r by lia. replace (n + (Zdigits2 m - n)) with (Zdigits2 m) by lia.
    done.
Qed.

Lemma div_pow2_small m n : 0 <= m → Zdigits2 m <= n → m / 2 ^ n = 0.
Proof.
  intros Hm Hn. apply Z.div_small. split; [done|].
  apply Zdigits2_lt_pow2; [done | | done]. pose proof (Zdigits2_nonneg m). lia.
Qed.

Lemma Zdigits2_succ m : 0 <= m → Zdigits2 m <= Zdigits2 (m + 1) <= Zdigits2 m + 1.
Proof.
  intros Hm. split; [apply Zdigits2_le; lia|].
  pose proof (Zdigits2_nonneg m).
  apply Zdigits2_lt_pow2; [lia | lia |].
  rewrite Z.pow_add_r by lia.
  assert (m < 2 ^ Zdigits2 m) by (apply Zdigits2_lt_pow2; lia). lia.
Qed.

Lemma Zdigits2_mul a b :
  0 < a → 0 < b →
  Zdigits2 a + Zdigits2 b - 1 <= Zdigits2 (a * b) <= Zdigits2 a + Zdigits2 b.
Proof.
  intros Ha Hb.
  pose proof (Zdigits2_spec a Ha) as [Hla Hha].
  pose proof (Zdigits2_spec b Hb) as [Hlb Hhb].
  pose proof (Zdigits2_pos a Ha). pose proof (Zdigits2_pos b Hb).
  split.
  - destruct (Z_lt_le_dec (Zdigits2 (a * b)) (Zdigits2 a + Zdigits2 b - 1)) as [Hlt|]; [|done].
    exfalso.
    assert (a * b < 2 ^ (Zdigits2 a + Zdigits2 b - 2)) as Hab.
    { apply Zdigits2_lt_pow2; lia. }
    replace (Zdigits2 a + Zdigits2 b - 2) with ((Zdigits2 a - 1) + (Zdigits2 b - 1)) in Hab by lia.
    rewrite Z.pow_add_r in Hab by lia. nia.
  - apply Zdigits2_lt_pow2; [lia | lia |].
    rewrite Z.pow_add_r by lia. nia.
Qed.

(** ** Right shifts *)

Lemma shr_1_m mrs : 0 <= shr_m mrs → shr_m (shr_1 mrs) = shr_m mrs / 2.
Proof.
  destruct mrs as [m r s]. simpl. intros Hm.
  destruct m as [|[p|p|]|p]; simpl; try lia; try reflexivity.
  - rewrite Pos2Z.inj_xI. apply (Z.div_unique _ _ _ 1); lia.
  - rewrite Pos2Z.inj_xO. apply (Z.div_unique _ _ _ 0); lia.
Qed.

Lemma pow2_xO p : 2 ^ Z.pos p~0 = 2 ^ Z.pos p * 2 ^ Z.pos p.
Proof. rewrite <- Z.pow_add_r by lia. f_equal. lia. Qed.

Lemma pow2_xI p : 2 ^ Z.pos p~1 = 2 * (2 ^ Z.pos p * 2 ^ Z.pos p).
Proof.
  rewrite <- Z.pow_add_r by lia. rewrite <- Z.pow_succ_r by lia. f_equal. lia.
Qed.

Lemma pow2_pos n : 0 <= n → 0 < 2 ^ n.
Proof. intros. apply Z.pow_pos_nonneg; lia. Qed.

Lemma iter_pos_shr_1_m p : ∀ mrs,
  0 <= shr_m mrs → shr_m (SpecFloat.iter_pos shr_1 p mrs) = shr_m mrs / 2 ^ Zpos p.
Proof.
  assert (∀ m k, 0 <= m → 0 < k → 0 <= m / k) as Hdiv.
  { intros. apply Z.div_pos; lia. }
  pose proof (pow2_pos (Zpos p) ltac:(lia)) as Hp.
  induction p as [p IH|p IH|]; intros mrs Hm; cbn [SpecFloat.iter_pos].
  - pose proof (pow2_pos (Zpos p) ltac:(lia)) as Hp'. specialize (IH Hp').
    assert (0 <= shr_m (shr_1 mrs)) as H1 by (rewrite shr_1_m by done; apply Hdiv; lia).
    assert (0 <= shr_m (SpecFloat.iter_pos shr_1 p (shr_1 mrs))) as H2.
    { rewrite IH by done. by apply Hdiv. }
    rewrite IH, IH, shr_1_m by done.
    rewrite pow2_xI, !Z.div_div by lia. done.
  - pose proof (pow2_pos (Zpos p) ltac:(lia)) as Hp'. specialize (IH Hp').
    assert (0 <= shr_m (SpecFloat.iter_pos shr_1 p mrs)) as H2.
    { rewrite IH by done. by apply Hdiv. }
    rewrite IH, IH by done.
    rewrite pow2_xO, !Z.div_div by lia. done.
  - rewrite shr_1_m by done. done.
Qed.

Lemma shr_1_exact m :
  0 <= m → shr_1 (Build_shr_record (2 * m) false false) = Build_shr_record m false false.
Proof. intros Hm. destruct m as [|p|p]; try lia; done. Qed.

Lemma iter_pos_shr_1_exact p : ∀ m,
  0 <= m →
  SpecFloat.iter_pos shr_1 p (Build_shr_record (m * 2 ^ Zpos p) false false)
  = Build_shr_record m false false.
Proof.
  induction p as [p IH|p IH|]; intros m Hm; cbn [SpecFloat.iter_pos].
  - pose proof (pow2_pos (Zpos p) ltac:(lia)) as Hp'.
    replace (m * 2 ^ Z.pos p~1) with (2 * ((m * 2 ^ Zpos p) * 2 ^ Zpos p))
      by (rewrite pow2_xI; lia).
    rewrite shr_1_exact, IH, IH; try done; nia.
  - pose proof (pow2_pos (Zpos p) ltac:(lia)) as Hp'.
    replace (m * 2 ^ Z.pos p~0) with ((m * 2 ^ Zpos p) * 2 ^ Zpos p)
      by (rewrite pow2_xO; lia).
    rewrite IH, IH; try done; nia.
  - change (2 ^ 1) with 2. replace (m * 2) with (2 * m) by lia. by apply shr_1_exact.
Qed.

Lemma shr_m_of_loc m l : shr_m (shr_record_of_loc m l) = m.
Proof. by destruct l as [|[]]. Qed.

Lemma round_nearest_even_range m l :
  m <= round_nearest_even m l <= m + 1.
Proof. destruct l as [|[]]; simpl; try lia. destruct (Z.even m); lia. Qed.

(** ** The rounding function, step by step *)

Section Round.
Variables prec emax : Z.
Hypothesis Hfmt : 0 < prec ∧ 2 <= emax.

Abbreviation fexp := (SpecFloat.fexp prec emax).
Abbreviation emin := (SpecFloat.emin prec emax).

Lemma fexp_ge_emin x : emin <= fexp x.
Proof.
  pose proof Hfmt as [Hprec Hemax].
  unfold SpecFloat.fexp. lia.
Qed.

Lemma fexp_mono x y : x <= y → fexp x <= fexp y.
Proof.
  pose proof Hfmt as [Hprec Hemax].
  unfold SpecFloat.fexp. lia.
Qed.

Lemma fexp_lt x : emin < x → fexp x < x.
Proof.
  pose proof Hfmt as [Hprec Hemax].
  unfold SpecFloat.fexp. lia.
Qed.

(** One call of [shr_fexp]: the exponent becomes the larger of [e] and the
    target exponent, the mantissa is divided accordingly. *)
Lemma shr_fexp_spec m e l :
  0 <= m →
  let e' := Z.max e (fexp (Zdigits2 m + e)) in
  snd (shr_fexp prec emax m e l) = e'
  ∧ shr_m (fst (shr_fexp prec emax m e l)) = m / 2 ^ (e' - e)
  ∧ (e' = e → fst (shr_fexp prec emax m e l) = shr_record_of_loc m l)
  ∧ (l = loc_Exact → ∀ m', 0 <= m' → m = m' * 2 ^ (e' - e) →
       fst (shr_fexp prec emax m e l) = Build_shr_record m' false false).
Proof.
  pose proof Hfmt as [Hprec Hemax].
  intros Hm e'. unfold shr_fexp, shr. fold e'.
  destruct (fexp (Zdigits2 m + e) - e) as [|p|p] eqn:Hn.
  - assert (e' = e) as -> by lia. simpl. rewrite Z.sub_diag, Z.div_1_r, shr_m_of_loc.
    repeat split; try done. intros -> m' Hm' ->. simpl. by rewrite Z.mul_1_r.
  - assert (e' - e = Zpos p) as Hp by lia. rewrite Hp. simpl.
    rewrite iter_pos_shr_1_m by (rewrite shr_m_of_loc; done). rewrite shr_m_of_loc.
    repeat split; try done; try lia.
    intros -> m' Hm' ->. simpl. by apply iter_pos_shr_1_exact.
  - assert (e' = e) as -> by lia. simpl. rewrite Z.sub_diag, Z.div_1_r, shr_m_of_loc.
    repeat split; try done. intros -> m' Hm' ->. simpl. by rewrite Z.mul_1_r.
Qed.

(** The anatomy of [binary_round_aux] on a non-negative mantissa. *)
Lemma binary_round_aux_spec s m e l :
  0 <= m →
  ∃ m2,
    let e1 := Z.max e (fexp (Zdigits2 m + e)) in
    let m1 := m / 2 ^ (e1 - e) in
    let ef := Z.max e1 (fexp (Zdigits2 m2 + e1)) in
    let mf := m2 / 2 ^ (ef - e1) in
    m1 <= m2 <= m1 + 1
    ∧ (l = loc_Exact → m = m1 * 2 ^ (e1 - e) → m2 = m1)
    ∧ binary_round_aux prec emax s m e l
      = match mf with
        | Z0 => S754_zero s
        | Zpos p => if ef <=? emax - prec then S754_finite s p ef else S754_infinity s
        | Zneg _ => S754_nan
        end.
Proof.
  pose proof Hfmt as [Hprec Hemax].
  intros Hm. unfold binary_round_aux.
  pose proof (shr_fexp_spec m e l Hm) as (He1 & Hm1 & Hsame & Hexact).
  destruct (shr_fexp prec emax m e l) as [mrs1 e1] eqn:H1. cbn [fst snd] in *.
  set (m2 := round_nearest_even (shr_m mrs1) (loc_of_shr_record mrs1)).
  exists m2. cbv zeta.
  pose proof (round_nearest_even_range (shr_m mrs1) (loc_of_shr_record mrs1)) as Hr.
  fold m2 in Hr.
  assert (0 <= shr_m mrs1) as Hm1pos.
  { rewrite Hm1. apply Z.div_pos; [done|]. apply pow2_pos. lia. }
  pose proof (shr_fexp_spec m2 e1 loc_Exact ltac:(lia)) as (He2 & Hm2 & _ & _).
  destruct (shr_fexp prec emax m2 e1 loc_Exact) as [mrs2 e2] eqn:H2. cbn [fst snd] in *.
  subst e1. rewrite <- Hm1. subst e2. rewrite <- Hm2.
  split; [done|]. split; [|done].
  intros Hl Hmul. unfold m2. rewrite (Hexact Hl (shr_m mrs1) Hm1pos Hmul). done.
Qed.

(** A right shift to the target exponent keeps the magnitude
    [digits + exponent], unless it shifts every bit out. *)
Lemma shift_magnitude m e :
  0 <= m →
  let e1 := Z.max e (fexp (Zdigits2 m + e)) in
  let m1 := m / 2 ^ (e1 - e) in
  (m1 = 0 ∧ Zdigits2 m + e <= e1 ∧ (e1 = emin ∨ (m = 0 ∧ e1 = e)))
  ∨ (0 < m1 ∧ Zdigits2 m1 + e1 = Zdigits2 m + e).
Proof.
  pose proof Hfmt as [Hprec Hemax].
  intros Hm e1 m1. pose proof (Zdigits2_nonneg m) as Hd.
  destruct (Z_le_gt_dec (fexp (Zdigits2 m + e)) e) as [Hle|Hgt].
  - assert (e1 = e) as He1 by lia.
    assert (m1 = m) as Hm1.
    { unfold m1. rewrite He1, Z.sub_diag. change (2 ^ 0) with 1. by rewrite Z.div_1_r. }
    destruct (Z.eq_dec m 0) as [H0|H0].
    + left. rewrite Hm1, H0. simpl. lia.
    + right. rewrite Hm1. lia.
  - assert (e1 = fexp (Zdigits2 m + e)) as He1 by lia.
    destruct (Z_le_gt_dec (Zdigits2 m) (e1 - e)) as [Hsmall|Hbig].
    + left. split; [apply div_pow2_small; lia|].
      unfold SpecFloat.fexp in *. lia.
    + right. assert (0 < m) as Hpos.
      { destruct (Z.eq_dec m 0) as [H0|]; [|lia]. rewrite H0 in Hbig. simpl in Hbig. lia. }
      assert (Zdigits2 m1 = Zdigits2 m - (e1 - e)) as Hd1.
      { apply Zdigits2_div_pow2; lia. }
      split; [|lia]. destruct (Z_lt_le_dec 0 m1) as [|Hneg]; [done|].
      assert (0 <= m1) by (apply Z.div_pos; [lia | apply pow2_pos; lia]).
      assert (m1 = 0) as H0 by lia. rewrite H0 in Hd1. simpl in Hd1. lia.
Qed.

Lemma shift_magnitude_above m e :
  0 < m → emin <= e →
  let e1 := Z.max e (fexp (Zdigits2 m + e)) in
  let m1 := m / 2 ^ (e1 - e) in
  0 < m1 ∧ Zdigits2 m1 + e1 = Zdigits2 m + e.
Proof.
  pose proof Hfmt as [Hprec Hemax].
  intros Hm He e1 m1.
  destruct (shift_magnitude m e ltac:(lia)) as [(_ & Hlow & Hcase)|H]; [|done].
  pose proof (Zdigits2_pos m Hm). unfold SpecFloat.fexp in *. lia.
Qed.

(** Everything the later proofs need to know about one rounding. *)
Lemma binary_round_aux_cases s m e l :
  0 <= m →
  ∃ mf ef,
    0 <= mf
    ∧ binary_round_aux prec emax s m e l
      = match mf with
        | Z0 => S754_zero s
        | Zpos p => if ef <=? emax - prec then S754_finite s p ef else S754_infinity s
        | Zneg _ => S754_nan
        end
    ∧ ef <= Z.max e (fexp (Zdigits2 m + e + 1))
    ∧ (0 < m → emin < Zdigits2 m + e → 0 < mf)
    ∧ (0 < mf →
       Zdigits2 m + e <= Zdigits2 mf + ef <= Z.max (Zdigits2 m + e + 1) (emin + 1))
    ∧ (0 < mf → e <= fexp (Zdigits2 m + e) → fexp (Zdigits2 mf + ef) = ef).
Proof.
  pose proof Hfmt as [Hprec Hemax].
  intros Hm.
  destruct (binary_round_aux_spec s m e l Hm) as (m2 & Hr & _ & Hres).
  cbv zeta in Hr, Hres.
  set (e1 := Z.max e (fexp (Zdigits2 m + e))) in *.
  set (m1 := m / 2 ^ (e1 - e)) in *.
  set (ef := Z.max e1 (fexp (Zdigits2 m2 + e1))) in *.
  set (mf := m2 / 2 ^ (ef - e1)) in *.
  assert (e1 = Z.max e (fexp (Zdigits2 m + e))) as He1eq by done.
  assert (ef = Z.max e1 (fexp (Zdigits2 m2 + e1))) as Hefeq by done.
  assert (emin <= e1) as He1min by (pose proof (fexp_ge_emin (Zdigits2 m + e)); lia).
  assert (0 <= m1) as Hm1 by (apply Z.div_pos; [lia | apply pow2_pos; lia]).
  assert (0 <= mf) as Hmf by (apply Z.div_pos; [lia | apply pow2_pos; lia]).
  pose proof (Zdigits2_nonneg m) as Hd.
  pose proof (Zdigits2_succ m1 Hm1) as Hsucc.
  assert (Zdigits2 m1 <= Zdigits2 m2 <= Zdigits2 m1 + 1) as Hd2.
  { destruct (Z.eq_dec m2 m1) as [->|]; [lia|].
    replace m2 with (m1 + 1) by lia. done. }
  exists mf, ef. split; [done|]. split; [done|].
  pose proof (shift_magnitude m e Hm) as Hsm. cbv zeta in Hsm.
  fold e1 in Hsm. fold m1 in Hsm.
  destruct Hsm as [(H0 & Hlow & Hcase)|[Hpos Hmag]].
  - (* every bit shifted out: the result is zero or one unit of [e1] *)
    assert (Zdigits2 m2 <= 1) as Hd2' by (rewrite H0 in Hd2; simpl in Hd2; lia).
    pose proof (Zdigits2_nonneg m2) as Hd2''.
    assert (ef = e1) as Hef by (unfold SpecFloat.fexp in *; lia).
    assert (mf = m2) as Hmf2.
    { unfold mf. rewrite Hef, Z.sub_diag. change (2 ^ 0) with 1.
      by rewrite Z.div_1_r. }
    split.
    { pose proof (fexp_mono (Zdigits2 m + e) (Zdigits2 m + e + 1) ltac:(lia)). lia. }
    split.
    { intros Hmpos Hmag. pose proof (Zdigits2_pos m Hmpos). lia. }
    assert (0 < mf → Zdigits2 mf = 1) as Hone.
    { intros Hp. rewrite Hmf2 in *. pose proof (Zdigits2_pos m2 Hp). lia. }
    split.
    + intros Hp. rewrite (Hone Hp). destruct Hcase as [He|[Hm0 He]]; [lia|].
      rewrite Hm0 in *. simpl in *. lia.
    + intros Hp Hfine. rewrite (Hone Hp), Hef.
      destruct Hcase as [He|[Hm0 He]].
      * rewrite He. unfold SpecFloat.fexp. lia.
      * rewrite Hm0 in *. simpl in *. unfold SpecFloat.fexp in *. lia.
  - assert (0 < m2) as Hm2 by lia.
    pose proof (shift_magnitude_above m2 e1 Hm2 He1min) as Hsm. cbv zeta in Hsm.
    fold ef in Hsm. fold mf in Hsm. destruct Hsm as [Hmfpos Hmag2].
    split.
    { pose proof (fexp_mono (Zdigits2 m + e) (Zdigits2 m + e + 1) ltac:(lia)).
      pose proof (fexp_mono (Zdigits2 m2 + e1) (Zdigits2 m + e + 1) ltac:(lia)).
      lia. }
    split; [done|]. split; [lia|].
    intros _ Hfine. rewrite Hmag2.
    assert (e1 = fexp (Zdigits2 m + e)) as He1 by lia.
    pose proof (fexp_mono (Zdigits2 m1 + e1) (Zdigits2 m2 + e1) ltac:(lia)) as Hmono.
    rewrite Hmag, <- He1 in Hmono. lia.
Qed.

(** Rounding a non-negative mantissa never gives NaN and keeps the sign. *)
Lemma binary_round_aux_sign s m e l :
  0 <= m →
  match binary_round_aux prec emax s m e l with
  | S754_zero s' | S754_infinity s' | S754_finite s' _ _ => s' = s
  | S754_nan => False
  end.
Proof.
  pose proof Hfmt as [Hprec Hemax].
  intros Hm. destruct (binary_round_aux_cases s m e l Hm) as (mf & ef & Hmf & -> & _).
  destruct mf as [|p|p]; [done| |lia]. by destruct (ef <=? emax - prec).
Qed.

(** A magnitude above the least exponent is never rounded to zero. *)
Lemma binary_round_aux_nonzero s m e l :
  0 < m → emin < Zdigits2 m + e →
  ∀ s', binary_round_aux prec emax s m e l ≠ S754_zero s'.
Proof.
  pose proof Hfmt as [Hprec Hemax].
  intros Hm Hmag s'.
  destruct (binary_round_aux_cases s m e l ltac:(lia)) as (mf & ef & Hmf & -> & _ & Hpos & _).
  specialize (Hpos Hm Hmag). destruct mf as [|p|p]; [lia| |lia].
  by destruct (ef <=? emax - prec).
Qed.

(** A magnitude below the largest exponent is never rounded to infinity. *)
Lemma binary_round_aux_finite s m e l :
  0 <= m → e <= emax - prec → Zdigits2 m + e < emax →
  ∀ s', binary_round_aux prec emax s m e l ≠ S754_infinity s'.
Proof.
  pose proof Hfmt as [Hprec Hemax].
  intros Hm He Hmag s'.
  destruct (binary_round_aux_cases s m e l Hm) as (mf & ef & Hmf & -> & Hef & _).
  assert (ef <= emax - prec) as Hle.
  { unfold SpecFloat.fexp, SpecFloat.emin in *. lia. }
  destruct mf as [|p|p]; [done| |lia].
  apply Z.leb_le in Hle. by rewrite Hle.
Qed.

(** The result of rounding a mantissa that is fine enough is a valid number
    of the format. *)
Lemma binary_round_aux_valid s m e l :
  0 <= m → e <= fexp (Zdigits2 m + e) →
  valid_binary prec emax (binary_round_aux prec emax s m e l) = true.
Proof.
  pose proof Hfmt as [Hprec Hemax].
  intros Hm Hfine.
  destruct (binary_round_aux_cases s m e l ltac:(lia)) as (mf & ef & Hmf & -> & _ & _ & _ & Hcan).
  destruct mf as [|p|p]; [done| |lia].
  destruct (ef <=? emax - prec) eqn:Hle; [|done].
  simpl. unfold bounded, canonical_mantissa. rewrite Hle, andb_true_r.
  apply Z.eqb_eq. apply (Hcan ltac:(lia) Hfine).
Qed.

(** Magnitude of a finite result. *)
Lemma binary_round_aux_magnitude s m e l s' mf ef :
  0 <= m →
  binary_round_aux prec emax s m e l = S754_finite s' mf ef →
  Zdigits2 m + e <= Zdigits2 (Zpos mf) + ef <= Z.max (Zdigits2 m + e + 1) (emin + 1).
Proof.
  pose proof Hfmt as [Hprec Hemax].
  intros Hm.
  destruct (binary_round_aux_cases s m e l Hm) as (mf' & ef' & Hmf & -> & _ & _ & Hmag & _).
  destruct mf' as [|p|p]; [done| |done].
  destruct (ef' <=? emax - prec); [|done].
  intros [= _ -> ->]. apply Hmag. lia.
Qed.

(** Rounding an exactly representable value returns it. *)
Lemma binary_round_aux_exact s m e k :
  0 <= k → e <= emax - prec → fexp (Zdigits2 (Zpos m) + e) = e →
  binary_round_aux prec emax s (Zpos m * 2 ^ k) (e - k) loc_Exact = S754_finite s m e.
Proof.
  pose proof Hfmt as [Hprec Hemax].
  intros Hk He Hcan. pose proof (pow2_pos k Hk) as Hpow.
  destruct (binary_round_aux_spec s (Zpos m * 2 ^ k) (e - k) loc_Exact ltac:(lia))
    as (m2 & _ & Hexact & ->).
  cbv zeta in Hexact.
  rewrite Zdigits2_mul_pow2 in * by lia.
  replace (Zdigits2 (Zpos m) + k + (e - k)) with (Zdigits2 (Zpos m) + e) in * by lia.
  rewrite Hcan in *.
  replace (Z.max (e - k) e) with e in * by lia.
  replace (e - (e - k)) with k in * by lia.
  rewrite Z.div_mul in * by lia.
  rewrite (Hexact eq_refl eq_refl), Hcan.
  replace (Z.max e e) with e by lia. rewrite Z.sub_diag. change (2 ^ 0) with 1.
  rewrite Z.div_1_r. apply Z.leb_le in He. by rewrite He.
Qed.

(** *** [binary_round] *)

Lemma iter_xO m d : Zpos (Pos.iter xO m d) = Zpos m * 2 ^ Zpos d.
Proof.
  pose proof Hfmt as [Hprec Hemax].
  induction d as [|d IH] using Pos.peano_ind.
  - simpl. lia.
  - rewrite Pos.iter_succ, Pos2Z.inj_xO, IH, Pos2Z.inj_succ, Z.pow_succ_r by lia. lia.
Qed.

Lemma shl_align_spec m e e' :
  snd (shl_align m e e') = Z.min e e'
  ∧ Zpos (fst (shl_align m e e')) = Zpos m * 2 ^ (e - Z.min e e').
Proof.
  pose proof Hfmt as [Hprec Hemax].
  unfold shl_align. destruct (e' - e) as [|p|p] eqn:Hd; simpl.
  - replace (Z.min e e') with e by lia. rewrite Z.sub_diag. simpl. lia.
  - replace (Z.min e e') with e by lia. rewrite Z.sub_diag. simpl. lia.
  - replace (Z.min e e') with e' by lia. split; [done|].
    rewrite iter_xO. f_equal. f_equal. lia.
Qed.

(** [binary_round] is [binary_round_aux] on an aligned mantissa that is fine
    enough for the format and has the same value. *)
Lemma binary_round_as_aux s m e :
  ∃ mz ez,
    binary_round prec emax s m e = binary_round_aux prec emax s (Zpos mz) ez loc_Exact
    ∧ ez = Z.min e (fexp (Zdigits2 (Zpos m) + e))
    ∧ Zpos mz = Zpos m * 2 ^ (e - ez)
    ∧ Zdigits2 (Zpos mz) + ez = Zdigits2 (Zpos m) + e.
Proof.
  pose proof Hfmt as [Hprec Hemax].
  unfold binary_round.
  pose proof (shl_align_spec m e (fexp (Zpos (digits2_pos m) + e))) as [He Hm].
  destruct (shl_align m e (fexp (Zpos (digits2_pos m) + e))) as [mz ez].
  cbn [fst snd] in *. exists mz, ez. split; [done|]. split; [done|].
  change (Zpos (digits2_pos m)) with (Zdigits2 (Zpos m)) in *.
  split; [by rewrite He|].
  rewrite Hm, Zdigits2_mul_pow2 by lia. lia.
Qed.

Lemma binary_round_valid s m e :
  valid_binary prec emax (binary_round prec emax s m e) = true.
Proof.
  pose proof Hfmt as [Hprec Hemax].
  destruct (binary_round_as_aux s m e) as (mz & ez & -> & He & _ & Hmag).
  apply binary_round_aux_valid; [lia|]. rewrite Hmag. lia.
Qed.

Lemma binary_round_sign s m e :
  match binary_round prec emax s m e with
  | S754_zero s' | S754_infinity s' | S754_finite s' _ _ => s' = s
  | S754_nan => False
  end.
Proof.
  pose proof Hfmt as [Hprec Hemax].
  destruct (binary_round_as_aux s m e) as (mz & ez & -> & _).
  apply binary_round_aux_sign. lia.
Qed.

Lemma binary_round_nonzero s m e :
  emin < Zdigits2 (Zpos m) + e → ∀ s', binary_round prec emax s m e ≠ S754_zero s'.
Proof.
  pose proof Hfmt as [Hprec Hemax].
  intros Hm. destruct (binary_round_as_aux s m e) as (mz & ez & -> & _ & _ & Hmag).
  apply binary_round_aux_nonzero; lia.
Qed.

Lemma binary_round_finite s m e :
  Zdigits2 (Zpos m) + e < emax → ∀ s', binary_round prec emax s m e ≠ S754_infinity s'.
Proof.
  pose proof Hfmt as [Hprec Hemax].
  intros Hm. destruct (binary_round_as_aux s m e) as (mz & ez & -> & He & _ & Hmag).
  apply binary_round_aux_finite; [lia| |lia].
  unfold SpecFloat.fexp, SpecFloat.emin in *. lia.
Qed.

Lemma binary_round_magnitude s m e s' mf ef :
  binary_round prec emax s m e = S754_finite s' mf ef →
  Zdigits2 (Zpos m) + e <= Zdigits2 (Zpos mf) + ef
  <= Z.max (Zdigits2 (Zpos m) + e + 1) (emin + 1).
Proof.
  pose proof Hfmt as [Hprec Hemax].
  destruct (binary_round_as_aux s m e) as (mz & ez & -> & He & _ & Hmag).
  intros Hr. apply binary_round_aux_magnitude in Hr; lia.
Qed.

(** A value that fits the format is returned as its canonical
    representation. *)
Lemma binary_round_exact s m e m' k :
  0 <= k → e <= emax - prec → fexp (Zdigits2 (Zpos m) + e) = e →
  Zpos m' = Zpos m * 2 ^ k →
  binary_round prec emax s m' (e - k) = S754_finite s m e.
Proof.
  pose proof Hfmt as [Hprec Hemax].
  intros Hk He Hcan Hm'.
  destruct (binary_round_as_aux s m' (e - k)) as (mz & ez & -> & Hez & Hmz & _).
  rewrite Hm', Zdigits2_mul_pow2 in Hez by lia.
  replace (Zdigits2 (Zpos m) + k + (e - k)) with (Zdigits2 (Zpos m) + e) in Hez by lia.
  rewrite Hcan in Hez. assert (ez = e - k) as -> by lia.
  rewrite Z.sub_diag, Z.mul_1_r in Hmz. rewrite Hmz, Hm'.
  by apply binary_round_aux_exact.
Qed.

(** A value with few digits is widened to the canonical representation of
    the format. *)
Lemma binary_round_widen s m e :
  fexp (Zdigits2 (Zpos m) + e) <= e → Zdigits2 (Zpos m) + e <= emax →
  ∃ mz,
    binary_round prec emax s m e = S754_finite s mz (fexp (Zdigits2 (Zpos m) + e))
    ∧ Zpos mz = Zpos m * 2 ^ (e - fexp (Zdigits2 (Zpos m) + e)).
Proof.
  pose proof Hfmt as [Hprec Hemax].
  intros Hfine Hmax.
  destruct (binary_round_as_aux s m e) as (mz & ez & -> & Hez & Hmz & Hmag).
  assert (ez = fexp (Zdigits2 (Zpos m) + e)) as Hez' by lia.
  exists mz. rewrite <- Hez'. split; [|done].
  replace (Zpos mz) with (Zpos mz * 2 ^ 0) by (simpl; lia).
  replace ez with (ez - 0) at 1 by lia.
  apply binary_round_aux_exact; [lia | | ].
  - unfold SpecFloat.fexp, SpecFloat.emin in *. lia.
  - rewrite Hmag. done.
Qed.

(** *** Products and quotients of finite numbers *)

Lemma SFmul_finite_sign sx mx ex sy my ey :
  match SFmul prec emax (S754_finite sx mx ex) (S754_finite sy my ey) with
  | S754_zero s' | S754_infinity s' | S754_finite s' _ _ => s' = xorb sx sy
  | S754_nan => False
  end.
Proof.
  pose proof Hfmt as [Hprec Hemax].
  unfold SFmul. apply binary_round_aux_sign. lia.
Qed.

Lemma SFmul_finite_nonzero sx mx ex sy my ey :
  emin + 1 < Zdigits2 (Zpos mx) + ex + (Zdigits2 (Zpos my) + ey) →
  ∀ s', SFmul prec emax (S754_finite sx mx ex) (S754_finite sy my ey) ≠ S754_zero s'.
Proof.
  pose proof Hfmt as [Hprec Hemax].
  intros Hmag. unfold SFmul. apply binary_round_aux_nonzero; [lia|].
  rewrite Pos2Z.inj_mul.
  pose proof (Zdigits2_mul (Zpos mx) (Zpos my) ltac:(lia) ltac:(lia)). lia.
Qed.

Lemma SFmul_finite_finite sx mx ex sy my ey :
  ex + ey <= emax - prec →
  Zdigits2 (Zpos mx) + ex + (Zdigits2 (Zpos my) + ey) < emax →
  ∀ s', SFmul prec emax (S754_finite sx mx ex) (S754_finite sy my ey) ≠ S754_infinity s'.
Proof.
  pose proof Hfmt as [Hprec Hemax].
  intros He Hmag. unfold SFmul. apply binary_round_aux_finite; [lia|done|].
  rewrite Pos2Z.inj_mul.
  pose proof (Zdigits2_mul (Zpos mx) (Zpos my) ltac:(lia) ltac:(lia)). lia.
Qed.

Lemma SFmul_finite_magnitude sx mx ex sy my ey s' mf ef :
  SFmul prec emax (S754_finite sx mx ex) (S754_finite sy my ey) = S754_finite s' mf ef →
  Zdigits2 (Zpos mx) + ex + (Zdigits2 (Zpos my) + ey) - 1 <= Zdigits2 (Zpos mf) + ef.
Proof.
  pose proof Hfmt as [Hprec Hemax].
  unfold SFmul. intros Hr. apply binary_round_aux_magnitude in Hr; [|lia].
  rewrite Pos2Z.inj_mul in Hr.
  pose proof (Zdigits2_mul (Zpos mx) (Zpos my) ltac:(lia) ltac:(lia)). lia.
Qed.

(** Multiplying a valid number by a power of two written [2^k * 2^(-k)],
    that is by one, returns it. *)
Lemma SFmul_one s m e p k :
  0 <= k → Zpos p = 2 ^ k →
  bounded prec emax m e = true →
  SFmul prec emax (S754_finite s m e) (S754_finite false p (- k)) = S754_finite s m e.
Proof.
  pose proof Hfmt as [Hprec Hemax].
  intros Hk Hp Hb. unfold bounded, canonical_mantissa in Hb.
  apply andb_true_iff in Hb as [Hcan He].
  apply Z.eqb_eq in Hcan. apply Z.leb_le in He.
  unfold SFmul. rewrite Pos2Z.inj_mul, Hp, xorb_false_r.
  replace (e + - k) with (e - k) by lia.
  by apply binary_round_aux_exact.
Qed.

Lemma div_digits a b n :
  0 < a → 0 < b → 0 <= n →
  Zdigits2 (a * 2 ^ n / b) <= Z.max 0 (Zdigits2 a + n - Zdigits2 b + 1).
Proof.
  pose proof Hfmt as [Hprec Hemax].
  intros Ha Hb Hn.
  pose proof (Zdigits2_spec a Ha) as [_ Hua].
  pose proof (Zdigits2_spec b Hb) as [Hlb _].
  pose proof (Zdigits2_pos a Ha) as Hda. pose proof (Zdigits2_pos b Hb) as Hdb.
  pose proof (pow2_pos n Hn) as Hpn.
  set (q := a * 2 ^ n / b).
  assert (0 <= q) as Hq by (apply Z.div_pos; nia).
  assert (q * b <= a * 2 ^ n) as Hqb.
  { unfold q. rewrite Z.mul_comm. apply Z.mul_div_le. lia. }
  assert (q * 2 ^ (Zdigits2 b - 1) < 2 ^ (Zdigits2 a + n)) as Hlt.
  { rewrite Z.pow_add_r by lia. nia. }
  destruct (Z_lt_le_dec (Zdigits2 a + n - Zdigits2 b + 1) 0) as [Hneg|Hpos].
  - assert (q = 0) as ->; [|simpl; lia].
    pose proof (Z.pow_le_mono_r 2 (Zdigits2 a + n) (Zdigits2 b - 1) ltac:(lia) ltac:(lia)).
    pose proof (pow2_pos (Zdigits2 b - 1) ltac:(lia)). nia.
  - rewrite Z.max_r by lia. apply Zdigits2_lt_pow2; [done|lia|].
    replace (Zdigits2 a + n) with ((Zdigits2 a + n - Zdigits2 b + 1) + (Zdigits2 b - 1))
      in Hlt by lia.
    rewrite Z.pow_add_r in Hlt by lia.
    pose proof (pow2_pos (Zdigits2 b - 1) ltac:(lia)). nia.
Qed.

(** A quotient of finite numbers is zero or finite when the magnitudes of
    the operands are not too far apart. *)
Lemma SFdiv_finite_finite sx mx ex sy my ey :
  Zdigits2 (Zpos mx) + ex - (Zdigits2 (Zpos my) + ey) + 1 < emax →
  match SFdiv prec emax (S754_finite sx mx ex) (S754_finite sy my ey) with
  | S754_zero _ | S754_finite _ _ _ => True
  | _ => False
  end.
Proof.
  pose proof Hfmt as [Hprec Hemax].
  intros Hmag. unfold SFdiv, SFdiv_core_binary.
  set (delta := Zdigits2 (Zpos mx) + ex - (Zdigits2 (Zpos my) + ey)) in *.
  set (e' := Z.min (fexp delta) (ex - ey)).
  set (n := ex - ey - e').
  set (m' := match n with Zpos _ => Z.shiftl (Zpos mx) n | Z0 => Zpos mx | Zneg _ => 0 end).
  assert (0 <= n) as Hn by lia.
  assert (m' = Zpos mx * 2 ^ n) as Hm'.
  { unfold m'. destruct n as [|p|p] eqn:Hp; [simpl; lia| |lia].
    by rewrite Z.shiftl_mul_pow2 by lia. }
  assert (fst (Z.div_eucl m' (Zpos my)) = m' / Zpos my) as Hq by done.
  destruct (Z.div_eucl m' (Zpos my)) as [q r]. cbn [fst] in Hq.
  pose proof (div_digits (Zpos mx) (Zpos my) n ltac:(lia) ltac:(lia) Hn) as Hdq.
  rewrite <- Hm', <- Hq in Hdq.
  assert (0 <= q) as Hq0.
  { rewrite Hq, Hm'. apply Z.div_pos; [|lia]. pose proof (pow2_pos n Hn). nia. }
  assert (e' <= emax - prec) as He'.
  { unfold e', SpecFloat.fexp, SpecFloat.emin. lia. }
  pose proof (binary_round_aux_sign (xorb sx sy) q e' (new_location (Zpos my) r) Hq0) as Hs.
  pose proof (binary_round_aux_finite (xorb sx sy) q e' (new_location (Zpos my) r)
                Hq0 He') as Hf.
  destruct (binary_round_aux prec emax (xorb sx sy) q e' (new_location (Zpos my) r))
    as [| s' | | ]; try done.
  apply (Hf ltac:(unfold n, delta in *; lia) s'). done.
Qed.

End Round.

Lemma fmt32 : 0 < 24 ∧ 2 <= 128.
Proof. lia. Qed.

Lemma fmt64 : 0 < 53 ∧ 2 <= 1024.
Proof. lia. Qed.

(** * binary32 and binary64 *)

Lemma bounded_spec prec emax m e :
  bounded prec emax m e = true ↔
  SpecFloat.fexp prec emax (Zdigits2 (Zpos m) + e) = e ∧ e <= emax - prec.
Proof.
  unfold bounded, canonical_mantissa. rewrite andb_true_iff, Z.eqb_eq, Z.leb_le. done.
Qed.

Lemma bounded_float m e :
  bounded 24 128 m e = true →
  Zdigits2 (Zpos m) <= 24 ∧ -149 <= e <= 104
  ∧ SpecFloat.fexp 24 128 (Zdigits2 (Zpos m) + e) = e.
Proof.
  intros Hb. apply bounded_spec in Hb as [Hcan He].
  unfold SpecFloat.fexp, SpecFloat.emin in *. lia.
Qed.

Lemma to_float_valid x : valid_binary 24 128 (float_val (to_float x)) = true.
Proof.
  destruct x as [[s|s| |s m e]]; try done. apply binary_round_valid. apply fmt32.
Qed.

Lemma to_double_valid x : valid_binary 53 1024 (double_val (to_double x)) = true.
Proof.
  destruct x as [[s|s| |s m e]]; try done. apply binary_round_valid. apply fmt64.
Qed.

(** [(double)x] is exact: the mantissa is widened, the value is the same. *)
Lemma to_double_finite s m e :
  bounded 24 128 m e = true →
  ∃ mz ez,
    to_double (Float (S754_finite s m e)) = Double (S754_finite s mz ez)
    ∧ ez <= e ∧ Zpos mz = Zpos m * 2 ^ (e - ez).
Proof.
  intros Hb. apply bounded_float in Hb as (Hd & He & Hcan).
  pose proof (Zdigits2_pos (Zpos m) ltac:(lia)) as Hd0.
  destruct (binary_round_widen 53 1024 fmt64 s m e) as (mz & Hr & Hmz).
  - unfold SpecFloat.fexp, SpecFloat.emin. lia.
  - lia.
  - exists mz, (SpecFloat.fexp 53 1024 (Zdigits2 (Zpos m) + e)).
    split; [unfold to_double; simpl; by rewrite Hr|]. split; [|done].
    unfold SpecFloat.fexp, SpecFloat.emin. lia.
Qed.

(** Converting a [float] to [double] and back returns it. *)
Lemma to_float_to_double x :
  valid_binary 24 128 (float_val x) = true → to_float (to_double x) = x.
Proof.
  destruct x as [[s|s| |s m e]]; try done. intros Hb. simpl in Hb.
  destruct (to_double_finite s m e Hb) as (mz & ez & -> & Hez & Hmz).
  apply bounded_float in Hb as (Hd & He & Hcan).
  unfold to_float. simpl. f_equal.
  replace ez with (e - (e - ez)) by lia.
  apply (binary_round_exact 24 128 fmt32); try lia; done.
Qed.

(** ** Conversions to integers *)

Lemma shiftl_scaled m k e : 0 <= k → Z.shiftl (m * 2 ^ k) (e - k) = Z.shiftl m e.
Proof.
  intros Hk. rewrite <- Z.shiftl_mul_pow2 by done.
  rewrite Z.shiftl_shiftl by done. f_equal. lia.
Qed.

Lemma shiftl_pos m e : 0 <= Z.shiftl (Zpos m) e.
Proof. apply Z.shiftl_nonneg. lia. Qed.

(** A positive number shifted by its exponent is its integer part. *)
Lemma floor_shiftl m e :
  (Zpos m * 2 ^ Z.max e 0) / 2 ^ Z.max (- e) 0 = Z.shiftl (Zpos m) e.
Proof.
  destruct (Z_le_gt_dec 0 e) as [He|He].
  - rewrite Z.max_l, Z.max_r by lia. change (2 ^ 0) with 1.
    rewrite Z.div_1_r. by rewrite Z.shiftl_mul_pow2.
  - rewrite Z.max_r, Z.max_l by lia. change (2 ^ 0) with 1. rewrite Z.mul_1_r.
    rewrite <- Z.shiftr_opp_r. by rewrite Z.shiftr_div_pow2 by lia.
Qed.

Lemma trunc_shiftl s m e :
  Z.quot (cond_Zopp s (Zpos m) * 2 ^ Z.max e 0) (2 ^ Z.max (- e) 0)
  = cond_Zopp s (Z.shiftl (Zpos m) e).
Proof.
  pose proof (floor_shiftl m e) as Hfl.
  pose proof (pow2_pos (Z.max e 0) ltac:(lia)) as Hn.
  pose proof (pow2_pos (Z.max (- e) 0) ltac:(lia)) as Hd.
  destruct s; simpl cond_Zopp.
  - rewrite <- Hfl. rewrite Z.mul_opp_l, Z.quot_opp_l by lia.
    f_equal. apply Z.quot_div_nonneg; lia.
  - rewrite <- Hfl. apply Z.quot_div_nonneg; lia.
Qed.

(** [(int)x] is [int_of_dib] of the stored [(double)x]. *)
Lemma c_int_int_of_dib x :
  valid_binary 24 128 (float_val x) = true → c_int x = int_of_dib (to_double x).
Proof.
  destruct x as [[s|s| |s m e]]; try done. intros Hb. simpl in Hb.
  destruct (to_double_finite s m e Hb) as (mz & ez & -> & Hez & Hmz).
  unfold c_int, int_of_dib, SFtrunc, SF2Q. cbn [float_val double_val].
  rewrite trunc_shiftl.
  replace (Z.shiftl (Zpos mz) ez) with (Z.shiftl (Zpos m) e).
  - by destruct s.
  - rewrite Hmz. replace ez with (e - (e - ez)) at 2 by lia.
    symmetry. apply shiftl_scaled. lia.
Qed.

(** The heights of the loop, in the words of the specification:
    [1 .. floor (total_height)], provided the floor is below [2^31]. *)
Lemma c_int_floor x k :
  1 <= k <= c_int x ↔
  ∃ n, SFfloor (float_val x) = Some n ∧ n < 2 ^ 31 ∧ 1 <= k <= n.
Proof.
  destruct x as [[s|s| |s m e]]; unfold c_int, SFfloor, SF2Q; cbn [float_val].
  - change (0 / 1) with 0. split; [lia|]. intros (n & [= <-] & _ & Hk). lia.
  - unfold INT_MIN. split; [lia|]. by intros (n & ? & _).
  - unfold INT_MIN. split; [lia|]. by intros (n & ? & _).
  - pose proof (shiftl_pos m e) as Ht. pose proof (floor_shiftl m e) as Hfl.
    unfold INT_MIN. destruct s; simpl cond_Zopp.
    + (* a negative number *)
      assert (Z.neg m * 2 ^ Z.max e 0 / 2 ^ Z.max (- e) 0 < 0) as Hneg.
      { apply Z.div_lt_upper_bound; [apply pow2_pos; lia|].
        pose proof (pow2_pos (Z.max e 0) ltac:(lia)). lia. }
      split.
      * destruct ((- 2 ^ 31 <=? - Z.shiftl (Zpos m) e) && (- Z.shiftl (Zpos m) e <? 2 ^ 31));
          lia.
      * intros (n & [= <-] & _ & Hk). lia.
    + rewrite Hfl.
      destruct (Z.ltb_spec (Z.shiftl (Zpos m) e) (2 ^ 31)) as [Hlt|Hge].
      * replace (- 2 ^ 31 <=? Z.shiftl (Zpos m) e) with true by (symmetry; apply Z.leb_le; lia).
        simpl. split; [intros Hk; by eexists|]. by intros (n & [= <-] & _ & Hk).
      * rewrite andb_false_r. split; [lia|]. intros (n & [= <-] & ? & _). lia.
Qed.

(** A tree on which the loop runs has a finite height between [1] and
    [2^31]. *)
Lemma c_int_ge_1 x :
  1 <= c_int x →
  ∃ m e,
    float_val x = S754_finite false m e
    ∧ c_int x = Z.shiftl (Zpos m) e
    ∧ c_int x < 2 ^ 31
    ∧ 1 <= Zdigits2 (Zpos m) + e <= 31.
Proof.
  destruct x as [[s|s| |s m e]]; unfold c_int, INT_MIN; cbn [float_val]; try lia.
  pose proof (shiftl_pos m e) as Ht.
  destruct s.
  { destruct ((- 2 ^ 31 <=? - Z.shiftl (Zpos m) e) && (- Z.shiftl (Zpos m) e <? 2 ^ 31)); lia. }
  destruct (Z.ltb_spec (Z.shiftl (Zpos m) e) (2 ^ 31)) as [Hlt|Hge];
    [|rewrite andb_false_r; lia].
  replace (- 2 ^ 31 <=? Z.shiftl (Zpos m) e) with true by (symmetry; apply Z.leb_le; lia).
  simpl. intros H1. exists m, e. split; [done|]. split; [done|]. split; [done|].
  change (Zpos (digits2_pos m)) with (Zdigits2 (Zpos m)).
  pose proof (Zdigits2_pos (Zpos m) ltac:(lia)) as Hd.
  destruct (Z_le_gt_dec 0 e) as [He|He].
  - rewrite Z.shiftl_mul_pow2 in Hlt by done.
    apply Zdigits2_lt_pow2 in Hlt; [|pose proof (pow2_pos e He); lia|lia].
    rewrite Zdigits2_mul_pow2 in Hlt by lia. lia.
  - rewrite <- Z.shiftr_opp_r in H1, Hlt.
    rewrite Z.shiftr_div_pow2 in H1, Hlt by lia.
    assert (- e < Zdigits2 (Zpos m)) as Hbig.
    { destruct (Z_lt_le_dec (- e) (Zdigits2 (Zpos m))) as [|Hsmall]; [done|].
      rewrite div_pow2_small in H1; lia. }
    apply Zdigits2_lt_pow2 in Hlt; [|apply Z.div_pos; [lia|apply pow2_pos; lia]|lia].
    rewrite Zdigits2_div_pow2 in Hlt by lia. lia.
Qed.

(** * The divisions of the loop *)

Lemma result_bind_Ok {A B} (a : A) (k : A → result B) : Ok a ≫= k = k a.
Proof. done. Qed.

Lemma result_bind_inv {A B} (m : result A) (k : A → result B) r :
  m ≫= k = Ok r → ∃ a, m = Ok a ∧ k a = Ok r.
Proof. destruct m as [a|]; [|done]. intros Hk. by exists a. Qed.

Lemma fdiv_not_zero x y : SF_is_zero (float_val y) = false → fdiv x y = Ok (fquot x y).
Proof. unfold fdiv. by intros ->. Qed.

Lemma fdiv_is_zero x y : SF_is_zero (float_val y) = true → fdiv x y = ZeroDivisionError.
Proof. unfold fdiv. by intros ->. Qed.

Lemma ddiv_not_zero x y : SF_is_zero (double_val y) = false → ddiv x y = Ok (dquot x y).
Proof. unfold ddiv. by intros ->. Qed.

Lemma ddiv_is_zero x y : SF_is_zero (double_val y) = true → ddiv x y = ZeroDivisionError.
Proof. unfold ddiv. by intros ->. Qed.

(** [(float)n] for a positive integer is a positive finite number of about
    the same magnitude. *)
Lemma float_of_long_pos n :
  1 <= n < 2 ^ 126 →
  ∃ m e,
    float_val (float_of_long n) = S754_finite false m e
    ∧ Zdigits2 (Zpos m) + e <= Zdigits2 n + 1.
Proof.
  destruct n as [|p|p]; try lia. intros [_ Hn].
  apply Zdigits2_lt_pow2 in Hn; [|lia|lia].
  unfold float_of_long, binary_normalize; cbn [float_val].
  pose proof (Zdigits2_pos (Zpos p) ltac:(lia)) as Hd.
  pose proof (binary_round_sign 24 128 fmt32 false p 0) as Hs.
  pose proof (binary_round_nonzero 24 128 fmt32 false p 0) as Hnz.
  pose proof (binary_round_finite 24 128 fmt32 false p 0) as Hf.
  pose proof (binary_round_magnitude 24 128 fmt32 false p 0) as Hmag.
  destruct (binary_round 24 128 false p 0) as [s|s| |s m e] eqn:Hr.
  - exfalso. apply (Hnz ltac:(unfold SpecFloat.emin; lia) s). done.
  - exfalso. apply (Hf ltac:(lia) s). done.
  - done.
  - subst s. exists m, e. split; [done|].
    specialize (Hmag false m e eq_refl). unfold SpecFloat.emin in Hmag. lia.
Qed.

(** When the loop runs, [total_height] and its square are positive finite
    numbers, so neither division of the loop raises. *)
Lemma total_height_nonzero th : 1 <= c_int th → SF_is_zero (float_val th) = false.
Proof. intros H. destruct (c_int_ge_1 th H) as (m & e & -> & _). done. Qed.

Lemma fsq_finite th :
  1 <= c_int th →
  ∃ m e, float_val (fsq th) = S754_finite false m e ∧ 1 <= Zdigits2 (Zpos m) + e.
Proof.
  intros H. destruct (c_int_ge_1 th H) as (m & e & Hth & _ & _ & Hmag).
  pose proof (Zdigits2_pos (Zpos m) ltac:(lia)) as Hd.
  unfold fsq, fmul; cbn [float_val]. rewrite Hth.
  pose proof (SFmul_finite_sign 24 128 fmt32 false m e false m e) as Hs.
  pose proof (SFmul_finite_nonzero 24 128 fmt32 false m e false m e) as Hnz.
  pose proof (SFmul_finite_finite 24 128 fmt32 false m e false m e) as Hf.
  pose proof (SFmul_finite_magnitude 24 128 fmt32 false m e false m e) as Hm.
  destruct (SFmul 24 128 (S754_finite false m e) (S754_finite false m e))
    as [s|s| |s mf ef] eqn:Hr.
  - exfalso. apply (Hnz ltac:(unfold SpecFloat.emin; lia) s). done.
  - exfalso. apply (Hf ltac:(lia) ltac:(lia) s). done.
  - done.
  - simpl in Hs. subst s. exists mf, ef. split; [done|].
    specialize (Hm false mf ef eq_refl). lia.
Qed.

Lemma fsq_nonzero th : 1 <= c_int th → SF_is_zero (float_val (fsq th)) = false.
Proof. intros H. destruct (fsq_finite th H) as (m & e & -> & _). done. Qed.

Lemma wrap64_sq h : 1 <= h < 2 ^ 31 → wrap64 (h ^ 2) = h ^ 2.
Proof.
  intros Hh. unfold wrap64.
  assert (0 <= h ^ 2 < 2 ^ 62) by nia.
  rewrite Z.mod_small by lia. lia.
Qed.

(** The relative heights [Z] and [Z2] are finite numbers. *)
Lemma relative_height_finite th h :
  1 <= h <= c_int th → is_finite (float_val (fquot (float_of_long h) th)) = true.
Proof.
  intros Hh. destruct (c_int_ge_1 th ltac:(lia)) as (m & e & Hth & _ & Hlt & Hmag).
  destruct (float_of_long_pos h ltac:(lia)) as (mh & eh & Hfl & Hmh).
  assert (Zdigits2 h <= 31) as Hdh by (apply Zdigits2_lt_pow2; lia).
  unfold fquot; cbn [float_val]. rewrite Hth, Hfl.
  pose proof (SFdiv_finite_finite 24 128 fmt32 false mh eh false m e ltac:(lia)) as Hq.
  by destruct (SFdiv 24 128 (S754_finite false mh eh) (S754_finite false m e)).
Qed.

Lemma relative_height_sq_finite th h :
  1 <= h <= c_int th →
  is_finite (float_val (fquot (float_of_long (h ^ 2)) (fsq th))) = true.
Proof.
  intros Hh. destruct (c_int_ge_1 th ltac:(lia)) as (m & e & Hth & _ & Hlt & Hmag).
  destruct (fsq_finite th ltac:(lia)) as (ms & es & Hsq & Hms).
  assert (1 <= h ^ 2 < 2 ^ 62) as Hh2 by nia.
  destruct (float_of_long_pos (h ^ 2) ltac:(lia)) as (mh & eh & Hfl & Hmh).
  assert (Zdigits2 (h ^ 2) <= 62) as Hdh by (apply Zdigits2_lt_pow2; lia).
  unfold fquot; cbn [float_val]. rewrite Hsq, Hfl.
  pose proof (SFdiv_finite_finite 24 128 fmt32 false mh eh false ms es ltac:(lia)) as Hq.
  by destruct (SFdiv 24 128 (S754_finite false mh eh) (S754_finite false ms es)).
Qed.

(** * The loop *)

Section Loop.
Context (body : Z → result dibs).
Implicit Types (heights : list Z) (m : profile).

Lemma for_heights_notin heights m m' k :
  for_heights body heights m = Ok m' → k ∉ heights → m' !! k = m !! k.
Proof.
  revert m. induction heights as [|x rest IH]; intros m Hrun Hk; simpl in Hrun.
  - by inversion Hrun.
  - destruct (body x) as [ds|] eqn:Hx; [simpl in Hrun | done].
    apply not_elem_of_cons in Hk as [Hne Hrest].
    rewrite (IH _ Hrun Hrest). by rewrite lookup_insert_ne.
Qed.

(** Every height of the range is stored with what the body computed for
    it (a height met twice is overwritten with the same list). *)
Lemma for_heights_lookup heights m m' k :
  for_heights body heights m = Ok m' → k ∈ heights →
  ∃ ds, body k = Ok ds ∧ m' !! k = Some ds.
Proof.
  revert m. induction heights as [|x rest IH]; intros m Hrun Hk; simpl in Hrun.
  - by apply elem_of_nil in Hk.
  - destruct (body x) as [ds|] eqn:Hx; [simpl in Hrun | done].
    destruct (decide (k ∈ rest)) as [Hin|Hout]; [by eapply IH|].
    apply elem_of_cons in Hk as [->|Hin]; [|done].
    exists ds. split; [done|].
    rewrite (for_heights_notin _ _ _ _ Hrun Hout). apply lookup_insert_eq.
Qed.

Lemma for_heights_dom heights m m' :
  for_heights body heights m = Ok m' → dom m' = dom m ∪ list_to_set heights.
Proof.
  revert m. induction heights as [|x rest IH]; intros m Hrun; simpl in Hrun.
  - inversion Hrun. simpl. by rewrite (right_id_L ∅ (∪)).
  - destruct (body x) as [ds|] eqn:Hx; [simpl in Hrun | done].
    rewrite (IH _ Hrun), dom_insert_L. simpl.
    rewrite (comm_L (∪) {[x]} (dom m)). by rewrite (assoc_L (∪)).
Qed.

(** The loop completes when no iteration raises. *)
Lemma for_heights_ok heights m :
  (∀ k, k ∈ heights → ∃ ds, body k = Ok ds) →
  ∃ m', for_heights body heights m = Ok m'.
Proof.
  revert m. induction heights as [|x rest IH]; intros m Hall; simpl.
  - by eexists.
  - destruct (Hall x) as [ds ->]; [left|]. simpl.
    apply IH. intros k Hk. apply Hall. by right.
Qed.

(** An iteration that raises makes the whole call raise. *)
Lemma for_heights_raise heights m k :
  k ∈ heights → body k = ZeroDivisionError →
  for_heights body heights m = ZeroDivisionError.
Proof.
  revert m. induction heights as [|x rest IH]; intros m Hk Hbody; simpl.
  - by apply elem_of_nil in Hk.
  - destruct (body x) as [ds|] eqn:Hx; [simpl | done].
    apply elem_of_cons in Hk as [->|Hin]; [congruence | by apply IH].
Qed.
End Loop.

Lemma elem_of_range lo hi k : k ∈ range lo hi ↔ lo ≤ k < hi.
Proof. unfold range. rewrite elem_of_seqZ. lia. Qed.

Lemma range_empty lo hi : hi ≤ lo → range lo hi = [].
Proof.
  intros H. unfold range, seqZ.
  replace (Z.to_nat (hi - lo)) with 0%nat by lia. done.
Qed.

(** A profile on the keys [1 .. n] has [n] entries. *)
Lemma keys_upto_size (prof : profile) n : keys_upto prof n → size prof = Z.to_nat n.
Proof.
  intros Hkeys.
  assert (dom prof = list_to_set (seqZ 1 n)) as Hdom.
  { apply set_eq. intros k. rewrite (Hkeys k), elem_of_list_to_set, elem_of_seqZ. lia. }
  rewrite <- size_dom, Hdom, size_list_to_set by apply NoDup_seqZ.
  apply length_seqZ.
Qed.

(** * The profile of a whole call

    Every evaluator is the same loop over [range(1, top_height + 1)]
    started on the empty dictionary. *)

Section Call.
Context (body : Z → result dibs) (top_height : Z).
Implicit Types (prof : profile) (k : Z).

Lemma heights_keys prof :
  for_heights body (range 1 (top_height + 1)) ∅ = Ok prof →
  keys_upto prof top_height.
Proof.
  intros Hrun k. rewrite (for_heights_dom _ _ _ _ Hrun), dom_empty_L.
  rewrite (left_id_L ∅ (∪)), elem_of_list_to_set, elem_of_range. lia.
Qed.

Lemma heights_lookup prof k :
  for_heights body (range 1 (top_height + 1)) ∅ = Ok prof →
  1 ≤ k ≤ top_height →
  ∃ ds, body k = Ok ds ∧ prof !! k = Some ds.
Proof.
  intros Hrun Hk. eapply for_heights_lookup; [done|]. apply elem_of_range. lia.
Qed.

Lemma heights_entry prof k ds :
  for_heights body (range 1 (top_height + 1)) ∅ = Ok prof →
  prof !! k = Some ds →
  1 ≤ k ≤ top_height ∧ body k = Ok ds.
Proof.
  intros Hrun Hk.
  assert (1 ≤ k ≤ top_height) as Hrange.
  { apply (heights_keys _ Hrun). apply elem_of_dom. by exists ds. }
  split; [done|].
  destruct (heights_lookup _ _ Hrun Hrange) as (ds' & Hbody & Hk'). congruence.
Qed.

Lemma heights_returns :
  (∀ k, 1 ≤ k ≤ top_height → ∃ ds, body k = Ok ds) →
  ∃ prof, for_heights body (range 1 (top_height + 1)) ∅ = Ok prof.
Proof.
  intros Hall. apply for_heights_ok. intros k Hk. apply Hall.
  apply elem_of_range in Hk. lia.
Qed.

(** A call that returns stores at every height what the body computes. *)
Lemma heights_stores k ds :
  (∀ k, 1 ≤ k ≤ top_height → ∃ ds, body k = Ok ds) →
  1 ≤ k ≤ top_height → body k = Ok ds →
  ∃ prof, for_heights body (range 1 (top_height + 1)) ∅ = Ok prof
          ∧ prof !! k = Some ds.
Proof.
  intros Hall Hk Hbody. destruct (heights_returns Hall) as [prof Hrun].
  exists prof. split; [done|].
  destruct (heights_lookup _ _ Hrun Hk) as (ds' & Hbody' & Hds). congruence.
Qed.

Lemma heights_raise k :
  1 ≤ k ≤ top_height → body k = ZeroDivisionError →
  for_heights body (range 1 (top_height + 1)) ∅ = ZeroDivisionError.
Proof.
  intros Hk Hbody. eapply for_heights_raise; [|done]. apply elem_of_range. lia.
Qed.

(** Below one unit of height the range is empty and the body never runs. *)
Lemma heights_empty :
  top_height < 1 → for_heights body (range 1 (top_height + 1)) ∅ = Ok ∅.
Proof. intros Hth. rewrite range_empty; [done|]. lia. Qed.
End Call.

(** * The evaluators, iteration by iteration *)

Lemma float_of_long_b2z b : float_of_long (Z.b2z b) = indicator b.
Proof. by destruct b. Qed.

Lemma czaplewski_dibs_formula dbh th a b c d e f h :
  1 <= h <= c_int th →
  czaplewski_dibs dbh th a b c d e f h
  = Ok (make_dibs (czaplewski_dib dbh th a b c d e f h)).
Proof.
  intros Hh. destruct (c_int_ge_1 th ltac:(lia)) as (_ & _ & _ & _ & Hlt & _).
  unfold czaplewski_dibs, czaplewski_dib.
  rewrite (fdiv_not_zero _ th) by (apply total_height_nonzero; lia).
  rewrite result_bind_Ok.
  rewrite (fdiv_not_zero _ (fsq th)) by (apply fsq_nonzero; lia).
  rewrite result_bind_Ok.
  rewrite wrap64_sq by lia. by rewrite !float_of_long_b2z.
Qed.

Lemma kozak1969_dibs_formula dbh th a b c h :
  1 <= h <= c_int th →
  kozak1969_dibs dbh th a b c h = Ok (make_dibs (kozak1969_dib dbh th a b c h)).
Proof.
  intros Hh. destruct (c_int_ge_1 th ltac:(lia)) as (_ & _ & _ & _ & Hlt & _).
  unfold kozak1969_dibs, kozak1969_dib.
  rewrite (fdiv_not_zero _ th) by (apply total_height_nonzero; lia).
  rewrite result_bind_Ok.
  rewrite (fdiv_not_zero _ (fsq th)) by (apply fsq_nonzero; lia).
  rewrite result_bind_Ok.
  by rewrite wrap64_sq by lia.
Qed.

Section WithLibm.
Context {L : Libm}.

Lemma kozak1988_dibs_formula dbh th a b c d e f g h i k :
  1 <= k <= c_int th →
  SF_is_zero (double_val (kozak1988_divisor d)) = false →
  kozak1988_dibs dbh th a b c d e f g h i k
  = Ok (make_dibs (kozak1988_dib dbh th a b c d e f g h i k)).
Proof.
  intros Hk Hd. unfold kozak1988_dibs, kozak1988_dib.
  rewrite (fdiv_not_zero (float_of_long k) th) by (apply total_height_nonzero; lia).
  rewrite result_bind_Ok.
  fold (kozak1988_divisor d). rewrite ddiv_not_zero by done.
  rewrite result_bind_Ok.
  rewrite (fdiv_not_zero dbh th) by (apply total_height_nonzero; lia).
  by rewrite result_bind_Ok.
Qed.

Lemma kozak1988_dibs_raise dbh th a b c d e f g h i k :
  1 <= k <= c_int th →
  SF_is_zero (double_val (kozak1988_divisor d)) = true →
  kozak1988_dibs dbh th a b c d e f g h i k = ZeroDivisionError.
Proof.
  intros Hk Hd. unfold kozak1988_dibs.
  rewrite (fdiv_not_zero (float_of_long k) th) by (apply total_height_nonzero; lia).
  rewrite result_bind_Ok.
  fold (kozak1988_divisor d). by rewrite ddiv_is_zero by done.
Qed.

Lemma wensel_dibs_formula dbh th a b c d e h :
  SF_is_zero (float_val (wensel_divisor th)) = false →
  SF_is_zero (float_val (wensel_X dbh th c d e)) = false →
  wensel_dibs dbh th a b c d e h = Ok (make_dibs (wensel_dib dbh th a b c d e h)).
Proof.
  intros Hd HX. unfold wensel_dibs, wensel_dib.
  fold (wensel_divisor th). rewrite (fdiv_not_zero _ (wensel_divisor th)) by done.
  rewrite result_bind_Ok. cbv zeta.
  fold (wensel_X dbh th c d e). rewrite (fdiv_not_zero a) by done.
  by rewrite result_bind_Ok.
Qed.

Lemma wensel_dibs_raise dbh th a b c d e h :
  SF_is_zero (float_val (wensel_divisor th)) = true
  ∨ SF_is_zero (float_val (wensel_X dbh th c d e)) = true →
  wensel_dibs dbh th a b c d e h = ZeroDivisionError.
Proof.
  intros Hzero. unfold wensel_dibs. fold (wensel_divisor th).
  destruct (SF_is_zero (float_val (wensel_divisor th))) eqn:Hd.
  - by rewrite (fdiv_is_zero _ (wensel_divisor th)).
  - destruct Hzero as [?|HX]; [done|].
    rewrite (fdiv_not_zero _ (wensel_divisor th)) by done.
    rewrite result_bind_Ok. cbv zeta.
    fold (wensel_X dbh th c d e). by rewrite (fdiv_is_zero a).
Qed.

End WithLibm.

(** * The evaluators, call by call *)

Lemma czaplewski_returns dbh th a b c d e f :
  ∃ prof, czaplewski_heights dbh th a b c d e f = Ok prof.
Proof.
  apply heights_returns. intros k Hk. eexists. by apply czaplewski_dibs_formula.
Qed.

Lemma kozak1969_returns dbh th a b c :
  ∃ prof, kozak1969_heights dbh th a b c = Ok prof.
Proof.
  apply heights_returns. intros k Hk. eexists. by apply kozak1969_dibs_formula.
Qed.

(** * Further facts about the arithmetic *)

(** ** Validity of the results *)

Lemma SFmul_valid prec emax x y :
  0 < prec ∧ 2 <= emax →
  valid_binary prec emax x = true → valid_binary prec emax y = true →
  valid_binary prec emax (SFmul prec emax x y) = true.
Proof.
  intros Hfmt.
  destruct x as [sx|sx| |sx mx ex], y as [sy|sy| |sy my ey]; try done.
  cbn [valid_binary]. intros Hx Hy.
  apply bounded_spec in Hx as [Hx _]. apply bounded_spec in Hy as [Hy _].
  unfold SFmul. apply binary_round_aux_valid; [done|lia|].
  rewrite Pos2Z.inj_mul.
  pose proof (Zdigits2_mul (Zpos mx) (Zpos my) ltac:(lia) ltac:(lia)).
  pose proof (Zdigits2_pos (Zpos mx) ltac:(lia)).
  pose proof (Zdigits2_pos (Zpos my) ltac:(lia)).
  unfold SpecFloat.fexp, SpecFloat.emin in *. lia.
Qed.

Lemma binary_normalize_valid prec emax m e sz :
  0 < prec ∧ 2 <= emax →
  valid_binary prec emax (binary_normalize prec emax m e sz) = true.
Proof. intros Hfmt. destruct m; [done| |]; by apply binary_round_valid. Qed.

Lemma binary_normalize_not_nan prec emax m e sz :
  0 < prec ∧ 2 <= emax → binary_normalize prec emax m e sz ≠ S754_nan.
Proof.
  intros Hfmt. destruct m as [|p|p]; [done| |]; simpl.
  - pose proof (binary_round_sign prec emax Hfmt false p e) as Hs.
    by destruct (binary_round prec emax false p e).
  - pose proof (binary_round_sign prec emax Hfmt true p e) as Hs.
    by destruct (binary_round prec emax true p e).
Qed.

Lemma SFadd_valid prec emax x y :
  0 < prec ∧ 2 <= emax →
  valid_binary prec emax x = true → valid_binary prec emax y = true →
  valid_binary prec emax (SFadd prec emax x y) = true.
Proof.
  intros Hfmt.
  destruct x as [[]|[]| |sx mx ex], y as [[]|[]| |sy my ey]; try done.
  intros _ _. unfold SFadd. by apply binary_normalize_valid.
Qed.

Lemma fmul_valid x y :
  valid_binary 24 128 (float_val x) = true → valid_binary 24 128 (float_val y) = true →
  valid_binary 24 128 (float_val (x * y)%flt) = true.
Proof. apply SFmul_valid, fmt32. Qed.

Lemma fadd_valid x y :
  valid_binary 24 128 (float_val x) = true → valid_binary 24 128 (float_val y) = true →
  valid_binary 24 128 (float_val (x + y)%flt) = true.
Proof. apply SFadd_valid, fmt32. Qed.

(** ** Conversions keep the kind of a number *)

Lemma to_double_is_finite x :
  valid_binary 24 128 (float_val x) = true →
  is_finite (double_val (to_double x)) = is_finite (float_val x).
Proof.
  destruct x as [[s|s| |s m e]]; try done. intros Hb. simpl in Hb.
  by destruct (to_double_finite s m e Hb) as (mz & ez & -> & _).
Qed.

Lemma to_double_is_zero x :
  valid_binary 24 128 (float_val x) = true →
  SF_is_zero (double_val (to_double x)) = SF_is_zero (float_val x).
Proof.
  destruct x as [[s|s| |s m e]]; try done. intros Hb. simpl in Hb.
  by destruct (to_double_finite s m e Hb) as (mz & ez & -> & _).
Qed.

Lemma to_float_not_nan x :
  double_val x ≠ S754_nan → float_val (to_float x) ≠ S754_nan.
Proof.
  destruct x as [[s|s| |s m e]]; try done. intros _. unfold to_float; simpl.
  pose proof (binary_round_sign 24 128 fmt32 s m e) as Hs.
  by destruct (binary_round 24 128 s m e).
Qed.

(** ** Zeros and ones *)

Lemma SFmul_zero_l prec emax s x :
  is_finite x = true → SF_is_zero (SFmul prec emax (S754_zero s) x) = true.
Proof. by destruct x. Qed.

Lemma SFmul_zero_r prec emax s x :
  is_finite x = true → SF_is_zero (SFmul prec emax x (S754_zero s)) = true.
Proof. by destruct x. Qed.

Lemma SFadd_zero_r prec emax x y :
  SF_is_zero y = true → SF_is_zero x = false → SFadd prec emax x y = x.
Proof. destruct y; try done. by destruct x as [| [] | |]. Qed.

Lemma SFsub_zero_r prec emax x y :
  SF_is_zero y = true → SF_is_zero x = false → SFsub prec emax x y = x.
Proof. destruct y; try done. by destruct x as [| [] | |]. Qed.

Lemma SF_is_zero_inv x : SF_is_zero x = true → ∃ s, x = S754_zero s.
Proof. destruct x; try done. by eexists. Qed.

(** [x * 1.0] is [x]. *)
Lemma dmul_one x :
  valid_binary 53 1024 (double_val x) = true → (x * d_1)%dbl = x.
Proof.
  destruct x as [[s|s| |s m e]]; unfold dmul; cbn [double_val]; intros Hb.
  - simpl. by rewrite xorb_false_r.
  - simpl. by rewrite xorb_false_r.
  - done.
  - f_equal. apply (SFmul_one 53 1024 fmt64 s m e _ 52); [lia|done|done].
Qed.

(** A difference of finite numbers is never NaN. *)
Lemma SFsub_finite_not_nan prec emax x y :
  0 < prec ∧ 2 <= emax →
  is_finite x = true → is_finite y = true → SFsub prec emax x y ≠ S754_nan.
Proof.
  intros Hfmt.
  destruct x as [[]| | |sx mx ex], y as [[]| | |sy my ey]; try done.
  intros _ _. unfold SFsub. by apply binary_normalize_not_nan.
Qed.

(** ** Comparison with one *)

Lemma c_int_lt_one x :
  valid_binary 24 128 (float_val x) = true → (x <? f_1)%flt = true → c_int x < 1.
Proof.
  destruct x as [[s|s| |s m e]]; unfold c_int, INT_MIN; cbn [float_val]; try lia.
  intros Hb Hlt. pose proof (shiftl_pos m e) as Ht.
  destruct s.
  { destruct ((- 2 ^ 31 <=? - Z.shiftl (Zpos m) e) && (- Z.shiftl (Zpos m) e <? 2 ^ 31)); lia. }
  simpl in Hb. apply bounded_float in Hb as (Hd & He & _).
  assert (Z.shiftl (Zpos m) e = 0) as ->; [|done].
  unfold flt, SFltb, SFcompare, f_1 in Hlt. cbn [float_val] in Hlt.
  destruct (Z.compare_spec e (-23)) as [Heq|Hlt'|Hgt]; [| |done].
  - subst e. rewrite <- Z.shiftr_opp_r, Z.shiftr_div_pow2 by lia.
    apply Z.div_small. split; [lia|].
    by destruct (Pos.compare_cont Eq m 8388608) eqn:Hc.
  - rewrite <- Z.shiftr_opp_r, Z.shiftr_div_pow2 by lia.
    apply div_pow2_small; lia.
Qed.

(** * The claims of the specification *)

Lemma not_fails_empty : ¬ fails_numerically (Ok ∅).
Proof.
  intros [Hraise | (prof & k & ds & Hok & Hk & _)]; [done|].
  inversion Hok; subst. by rewrite lookup_empty in Hk.
Qed.

Lemma produced_for_keys {L : Libm} th prof :
  produced_for th prof → keys_upto prof (c_int (to_float th)).
Proof.
  intros [H1|[H1|[H1|H1]]].
  - destruct H1 as (dbh & a & b & c & d & e & f & Hrun). by eapply heights_keys.
  - destruct H1 as (dbh & a & b & c & Hrun). by eapply heights_keys.
  - destruct H1 as (dbh & a & b & c & d & e & f & g & h & i & Hrun). by eapply heights_keys.
  - destruct H1 as (dbh & a & b & c & d & e & Hrun). by eapply heights_keys.
Qed.

(** C1, as stated, fails.  The height is received as a binary32 number and
    converted to a 32-bit integer: for [total_height = 3e9] the conversion
    gives [-2^31] and the profile is empty although [floor (3e9)] is
    [3000000000]; and [2.99999999] is received as [3.0], so the profile has
    the key [3] although the floor is [2]. *)
Lemma profile_keys_fails :
  (∃ prof n,
      kozak1969_heights (double_of_long 10) (double_of_long 3000000000) d_1 d_0 d_0
      = Ok prof
      ∧ is_positive (double_of_long 10)
      ∧ is_positive (double_of_long 3000000000)
      ∧ SFfloor (double_val (double_of_long 3000000000)) = Some n
      ∧ ¬ keys_upto prof n)
  ∧ (∃ prof n,
      kozak1969_heights (double_of_long 10) (decimal 299999999 100000000) d_1 d_0 d_0
      = Ok prof
      ∧ is_positive (decimal 299999999 100000000)
      ∧ SFfloor (double_val (decimal 299999999 100000000)) = Some n
      ∧ ¬ keys_upto prof n).
Proof.
  split.
  - exists ∅, 3000000000. split.
    { apply heights_empty.
      assert (c_int (to_float (double_of_long 3000000000)) = INT_MIN) as ->
        by (vm_compute; reflexivity).
      by vm_compute. }
    split; [by vm_compute|]. split; [by vm_compute|]. split; [by vm_compute|].
    intros Hkeys. specialize (Hkeys 1) as [_ Hkeys].
    rewrite dom_empty_L in Hkeys. apply (not_elem_of_empty (C:=gset Z) 1).
    apply Hkeys. lia.
  - destruct (kozak1969_returns (double_of_long 10) (decimal 299999999 100000000)
                d_1 d_0 d_0) as [prof Hrun].
    exists prof, 2. split; [done|]. split; [by vm_compute|]. split; [by vm_compute|].
    intros Hkeys.
    pose proof (heights_keys _ _ _ Hrun 3) as [_ H3].
    assert (c_int (to_float (decimal 299999999 100000000)) = 3) as Htop
      by (vm_compute; reflexivity).
    rewrite Htop in H3. apply Hkeys in H3; lia.
Qed.

(** C1 (amended): a profile returned by any of the four evaluators has
    exactly the keys [1 .. floor (t)], where [t] is [total_height] rounded
    to binary32, provided [t] is finite and [floor (t)] is below [2^31];
    otherwise it has no key. *)
Theorem profile_keys {L : Libm} (total_height : double) (prof : profile) :
  produced_for total_height prof →
  ∀ k : Z,
    k ∈ dom prof ↔
    ∃ n, SFfloor (float_val (to_float total_height)) = Some n
         ∧ n < 2 ^ 31 ∧ 1 ≤ k ≤ n.
Proof.
  intros Hprod k. rewrite (produced_for_keys _ _ Hprod k). apply c_int_floor.
Qed.

Lemma profile_keys_37_6 :
  ∃ prof,
    kozak1969_heights (double_of_long 20) (decimal 376 10) d_1 d_0 d_0 = Ok prof
    ∧ ∀ k : Z, k ∈ dom prof ↔ 1 ≤ k ≤ 37.
Proof.
  destruct (kozak1969_returns (double_of_long 20) (decimal 376 10) d_1 d_0 d_0)
    as [prof Hrun].
  exists prof. split; [done|]. intros k.
  assert (@produced_for mini_libm (decimal 376 10) prof) as Hprod.
  { right; left. by exists (double_of_long 20), d_1, d_0, d_0. }
  rewrite (@profile_keys mini_libm (decimal 376 10) prof Hprod k).
  assert (SFfloor (float_val (to_float (decimal 376 10))) = Some 37) as ->
    by (vm_compute; reflexivity).
  split.
  - intros (n & Hn & _ & Hk). by inversion Hn; subst.
  - intros Hk. exists 37. split; [done|]. split; [done|]. done.
Defined.

(** C7, as stated, fails: with [total_height = 0] the range of heights is
    empty, so no evaluator divides by anything, none raises and none stores
    a non-finite diameter. *)
Lemma zero_height_no_failure :
  ¬ fails_numerically
      (czaplewski_heights (double_of_long 20) d_0 d_1 d_1 d_1 d_1 d_1 d_1)
  ∧ ¬ fails_numerically (kozak1969_heights (double_of_long 20) d_0 d_1 d_1 d_1)
  ∧ (∀ L : Libm,
       ¬ fails_numerically
           (kozak1988_heights (double_of_long 20) d_0 d_1 d_1 d_1 d_1 d_1 d_1 d_1 d_1 d_1))
  ∧ (∀ L : Libm,
       ¬ fails_numerically (wensel_heights (double_of_long 20) d_0 d_1 d_1 d_1 d_1 d_1)).
Proof.
  unfold czaplewski_heights, kozak1969_heights, kozak1988_heights, wensel_heights.
  repeat split; intros; rewrite heights_empty by done; apply not_fails_empty.
Qed.

(** C7 (amended): with [total_height = 0] (of either sign) every evaluator
    returns the empty profile, whatever the diameter, the coefficients and
    the C library: the loop body, and with it the division by
    [total_height], is never evaluated. *)
Theorem zero_height_empty_profile :
  (∀ s dbh a b c d e f,
     czaplewski_heights dbh (Double (S754_zero s)) a b c d e f = Ok ∅)
  ∧ (∀ s dbh a b c, kozak1969_heights dbh (Double (S754_zero s)) a b c = Ok ∅)
  ∧ (∀ (L : Libm) s dbh a b c d e f g h i,
       kozak1988_heights dbh (Double (S754_zero s)) a b c d e f g h i = Ok ∅)
  ∧ (∀ (L : Libm) s dbh a b c d e,
       wensel_heights dbh (Double (S754_zero s)) a b c d e = Ok ∅).
Proof. repeat split; intros; by apply heights_empty. Qed.

(** C10, as stated, fails: [total_height = 0.99999999] is below [1], but
    it is received as the binary32 number [1.0]; the loop runs once and the
    key [1] is stored. *)
Lemma short_tree_empty_profile_fails :
  ∃ prof,
    kozak1969_heights (double_of_long 10) (decimal 99999999 100000000) d_1 d_0 d_0
    = Ok prof
    ∧ SFltb (double_val (decimal 99999999 100000000)) (double_val d_1) = true
    ∧ 1 ∈ dom prof.
Proof.
  destruct (kozak1969_returns (double_of_long 10) (decimal 99999999 100000000)
              d_1 d_0 d_0) as [prof Hrun].
  exists prof. split; [done|]. split; [by vm_compute|].
  apply (heights_keys _ _ _ Hrun 1).
  assert (c_int (to_float (decimal 99999999 100000000)) = 1) as ->
    by (vm_compute; reflexivity).
  lia.
Qed.

(** C10 (amended): when [total_height], rounded to binary32, is below [1],
    each of the four evaluators returns the empty profile, whatever the
    diameter, the coefficients and the C library: no iteration runs and
    nothing is raised. *)
Theorem short_tree_empty_profile (total_height : double) :
  (to_float total_height <? f_1)%flt = true →
  (∀ dbh a b c d e f, czaplewski_heights dbh total_height a b c d e f = Ok ∅)
  ∧ (∀ dbh a b c, kozak1969_heights dbh total_height a b c = Ok ∅)
  ∧ (∀ (L : Libm) dbh a b c d e f g h i,
       kozak1988_heights dbh total_height a b c d e f g h i = Ok ∅)
  ∧ (∀ (L : Libm) dbh a b c d e, wensel_heights dbh total_height a b c d e = Ok ∅).
Proof.
  intros Hlt.
  pose proof (c_int_lt_one (to_float total_height) (to_float_valid _) Hlt) as Htop.
  repeat split; intros; by apply heights_empty.
Qed.

Lemma short_tree_empty_profile_example :
  (to_float (decimal 5 10) <? f_1)%flt = true
  ∧ kozak1969_heights (double_of_long 10) (decimal 5 10) d_1 d_0 d_0 = Ok ∅
  ∧ wensel_heights (L := mini_libm)
      (double_of_long 10) (decimal 5 10) d_1 d_1 d_1 d_1 d_1 = Ok ∅.
Proof.
  assert ((to_float (decimal 5 10) <? f_1)%flt = true) as Hlt by (vm_compute; reflexivity).
  split; [exact Hlt|].
  destruct (short_tree_empty_profile (decimal 5 10) Hlt) as (_ & H69 & _ & Hw).
  split; [apply H69 | apply Hw].
Defined.

(** ** The stored diameters *)

Lemma real_of_eq x n d :
  SF2Q (double_val x) = Some (n, d) → real_of x = (IZR n / IZR d)%R.
Proof. unfold real_of, B2R. by intros ->. Qed.

(** Replaces [real_of x], for a concrete [x], by its value as a fraction. *)
Ltac real_value x :=
  let q := eval vm_compute in (SF2Q (double_val x)) in
  lazymatch q with
  | Some (?n, ?d) =>
      rewrite (real_of_eq x n d) by (vm_compute; reflexivity)
  end.

Lemma czaplewski_stores dbh th a b c d e f h :
  1 ≤ h ≤ c_int (to_float th) →
  ∃ prof,
    czaplewski_heights dbh th a b c d e f = Ok prof
    ∧ prof !! h
      = Some (make_dibs (czaplewski_dib (to_float dbh) (to_float th) (to_float a)
                           (to_float b) (to_float c) (to_float d) (to_float e)
                           (to_float f) h)).
Proof.
  intros Hh. apply heights_stores; [|done|by apply czaplewski_dibs_formula].
  intros k Hk. eexists. by apply czaplewski_dibs_formula.
Qed.

Lemma kozak1969_stores dbh th a b c h :
  1 ≤ h ≤ c_int (to_float th) →
  ∃ prof,
    kozak1969_heights dbh th a b c = Ok prof
    ∧ prof !! h
      = Some (make_dibs (kozak1969_dib (to_float dbh) (to_float th) (to_float a)
                           (to_float b) (to_float c) h)).
Proof.
  intros Hh. apply heights_stores; [|done|by apply kozak1969_dibs_formula].
  intros k Hk. eexists. by apply kozak1969_dibs_formula.
Qed.

(** C2, as stated, fails: the stored diameter is the formula evaluated in
    binary32 and binary64 arithmetic, not its real value.  For
    [dbh = 10], [total_height = 3], [a = b = e = f = 0], [c = -2.625],
    [d = 1.125] and [h = 2] the radicand is [1/4] and the formula gives
    [5]; the program stores [4.99999952316...] and the integer [4]. *)
Lemma czaplewski_heights_dib_fails :
  ∃ prof ds,
    czaplewski_heights (double_of_long 10) (double_of_long 3) d_0 d_0
      (decimal (-2625) 1000) (decimal 1125 1000) d_0 d_0 = Ok prof
    ∧ prof !! 2 = Some ds
    ∧ SFfloor (double_val (double_of_long 3)) = Some 3
    ∧ dib_int ds = 4
    ∧ real_of (dib ds)
      ≠ czaplewski_formula (real_of (double_of_long 10)) (real_of (double_of_long 3))
          (real_of d_0) (real_of d_0)
          (real_of (decimal (-2625) 1000)) (real_of (decimal 1125 1000))
          (real_of d_0) (real_of d_0) 2.
Proof.
  destruct (czaplewski_stores (double_of_long 10) (double_of_long 3) d_0 d_0
              (decimal (-2625) 1000) (decimal 1125 1000) d_0 d_0 2) as (prof & Hrun & Hds).
  { assert (c_int (to_float (double_of_long 3)) = 3) as -> by (vm_compute; reflexivity).
    lia. }
  eexists prof, _. split; [exact Hrun|]. split; [exact Hds|].
  split; [vm_compute; reflexivity|]. split; [vm_compute; reflexivity|].
  match goal with
  | |- real_of (dib (make_dibs ?x)) ≠ _ =>
      let v := eval vm_compute in (dib (make_dibs x)) in
      replace (dib (make_dibs x)) with v by (vm_compute; reflexivity)
  end.
  unfold czaplewski_formula. cbv zeta.
  repeat match goal with
         | |- context [real_of ?x] => real_value x
         end.
  change (2 ^ 2)%Z with 4%Z.
  destruct (Rlt_dec _ _) as [Hlt|Hge]; [exfalso; lra|].
  match goal with
  | |- context [sqrt ?r] => replace r with (/ 2 * / 2)%R by lra
  end.
  rewrite sqrt_square by lra. lra.
Qed.

(** C2 (amended): for every height [h] of the loop, [1 <= h <= top_height]
    with [top_height] the 32-bit conversion of [total_height] rounded to
    binary32, [czaplewski_heights] returns a profile that stores at key [h]
    the diameter of the Czaplewski formula evaluated on the arguments
    rounded to binary32, in the arithmetic of the program; both indicator
    terms are computed as the specification writes them. *)
Theorem czaplewski_heights_dib (dbh total_height a b c d e f : double) (h : Z) :
  1 ≤ h ≤ c_int (to_float total_height) →
  ∃ prof ds,
    czaplewski_heights dbh total_height a b c d e f = Ok prof
    ∧ prof !! h = Some ds
    ∧ dib ds
      = to_double (czaplewski_dib (to_float dbh) (to_float total_height) (to_float a)
                     (to_float b) (to_float c) (to_float d) (to_float e) (to_float f) h).
Proof.
  intros Hh.
  destruct (czaplewski_stores dbh total_height a b c d e f h Hh) as (prof & Hrun & Hds).
  by eexists prof, _.
Qed.

(** At height 10 of a tree of height 80 the relative height is [0.125],
    below [a = 0.5] and [b = 0.25]: both indicators are 1 and the stored
    diameter is [22.36067...]. *)
Lemma czaplewski_heights_dib_example :
  1 ≤ 10 ≤ c_int (to_float (double_of_long 80))
  ∧ ∃ prof ds,
      czaplewski_heights (double_of_long 20) (double_of_long 80) (decimal 5 10)
        (decimal 25 100) (double_of_long (-2)) d_1 (double_of_long 3) (double_of_long 4)
      = Ok prof
      ∧ prof !! 10 = Some ds
      ∧ dib ds = Double (S754_finite false 6293971777093632 (-48)).
Proof.
  assert (1 ≤ 10 ≤ c_int (to_float (double_of_long 80))) as Hh.
  { assert (c_int (to_float (double_of_long 80)) = 80) as -> by (vm_compute; reflexivity).
    lia. }
  split; [exact Hh|].
  destruct (czaplewski_heights_dib (double_of_long 20) (double_of_long 80) (decimal 5 10)
              (decimal 25 100) (double_of_long (-2)) d_1 (double_of_long 3)
              (double_of_long 4) 10 Hh) as (prof & ds & Hrun & Hds & Hdib).
  exists prof, ds. split; [exact Hrun|]. split; [exact Hds|].
  rewrite Hdib. vm_compute. reflexivity.
Defined.

(** C3, as stated, fails: the radicand is computed in binary32.  For
    [dbh = 10], [total_height = 3], [a = 3.25], [b = -2.875], [c = -0.375]
    and [h = 1] the radicand is [9/4] and the formula gives [15]; the
    program stores [14.99999904...] and the integer [14]. *)
Lemma kozak1969_heights_dib_fails :
  ∃ prof ds,
    kozak1969_heights (double_of_long 10) (double_of_long 3) (decimal 325 100)
      (decimal (-2875) 1000) (decimal (-375) 1000) = Ok prof
    ∧ prof !! 1 = Some ds
    ∧ SFfloor (double_val (double_of_long 3)) = Some 3
    ∧ dib_int ds = 14
    ∧ real_of (dib ds)
      ≠ kozak1969_formula (real_of (double_of_long 10)) (real_of (double_of_long 3))
          (real_of (decimal 325 100)) (real_of (decimal (-2875) 1000))
          (real_of (decimal (-375) 1000)) 1.
Proof.
  destruct (kozak1969_stores (double_of_long 10) (double_of_long 3) (decimal 325 100)
              (decimal (-2875) 1000) (decimal (-375) 1000) 1) as (prof & Hrun & Hds).
  { assert (c_int (to_float (double_of_long 3)) = 3) as -> by (vm_compute; reflexivity).
    lia. }
  eexists prof, _. split; [exact Hrun|]. split; [exact Hds|].
  split; [vm_compute; reflexivity|]. split; [vm_compute; reflexivity|].
  match goal with
  | |- real_of (dib (make_dibs ?x)) ≠ _ =>
      let v := eval vm_compute in (dib (make_dibs x)) in
      replace (dib (make_dibs x)) with v by (vm_compute; reflexivity)
  end.
  unfold kozak1969_formula. cbv zeta.
  repeat match goal with
         | |- context [real_of ?x] => real_value x
         end.
  match goal with
  | |- context [sqrt ?r] => replace r with (3 / 2 * (3 / 2))%R by lra
  end.
  rewrite sqrt_square by lra. lra.
Qed.

(** C3 (amended): for every height [h] of the loop, [kozak1969_heights]
    returns a profile that stores at key [h] the diameter of the Kozak-1969
    formula evaluated on the arguments rounded to binary32, in the
    arithmetic of the program, with [Z2 = h^2 / total_height^2]. *)
Theorem kozak1969_heights_dib (dbh total_height a b c : double) (h : Z) :
  1 ≤ h ≤ c_int (to_float total_height) →
  ∃ prof ds,
    kozak1969_heights dbh total_height a b c = Ok prof
    ∧ prof !! h = Some ds
    ∧ dib ds
      = to_double (kozak1969_dib (to_float dbh) (to_float total_height) (to_float a)
                     (to_float b) (to_float c) h).
Proof.
  intros Hh.
  destruct (kozak1969_stores dbh total_height a b c h Hh) as (prof & Hrun & Hds).
  by eexists prof, _.
Qed.

(** The example of the specification: [dbh = 15], [total_height = 60],
    [a = 2], [b = -1], [c = 0.1] at [h = 30] stores [18.52363...]. *)
Lemma kozak1969_heights_dib_example :
  1 ≤ 30 ≤ c_int (to_float (double_of_long 60))
  ∧ ∃ prof ds,
      kozak1969_heights (double_of_long 15) (double_of_long 60) (double_of_long 2)
        (double_of_long (-1)) (decimal 1 10) = Ok prof
      ∧ prof !! 30 = Some ds
      ∧ dib ds = Double (S754_finite false 5213939436617728 (-48)).
Proof.
  assert (1 ≤ 30 ≤ c_int (to_float (double_of_long 60))) as Hh.
  { assert (c_int (to_float (double_of_long 60)) = 60) as -> by (vm_compute; reflexivity).
    lia. }
  split; [exact Hh|].
  destruct (kozak1969_heights_dib (double_of_long 15) (double_of_long 60)
              (double_of_long 2) (double_of_long (-1)) (decimal 1 10) 30 Hh)
    as (prof & ds & Hrun & Hds & Hdib).
  exists prof, ds. split; [exact Hrun|]. split; [exact Hds|].
  rewrite Hdib. vm_compute. reflexivity.
Defined.

(** ** The stored list *)

Lemma make_dibs_shape x :
  valid_binary 24 128 (float_val x) = true →
  dib_int (make_dibs x) = int_of_dib (dib (make_dibs x))
  ∧ dib_converted (make_dibs x) = dquot (dib (make_dibs x)) d_12.
Proof. intros Hv. split; [by apply c_int_int_of_dib | done]. Qed.

(** Every stored list is [make_dibs] of a valid binary32 number. *)
Lemma produced_entry {L : Libm} prof h ds :
  produced prof → prof !! h = Some ds →
  ∃ x, valid_binary 24 128 (float_val x) = true ∧ ds = make_dibs x.
Proof.
  intros Hprod Hds.
  assert (∀ body top, for_heights body (range 1 (top + 1)) ∅ = Ok prof →
            (∀ k r, body k = Ok r →
               ∃ x, valid_binary 24 128 (float_val x) = true ∧ r = make_dibs x) →
            ∃ x, valid_binary 24 128 (float_val x) = true ∧ ds = make_dibs x) as Hgen.
  { intros body top Hrun Hbody.
    destruct (heights_entry _ _ _ _ _ Hrun Hds) as [_ Hk]. by eapply Hbody. }
  destruct Hprod as [H1|[H1|[H1|H1]]].
  - destruct H1 as (dbh & th & a & b & c & d & e & f & Hrun).
    apply (Hgen _ _ Hrun). intros k r. unfold czaplewski_dibs.
    intros (Zr & _ & (Z2 & _ & [= <-])%result_bind_inv)%result_bind_inv.
    eexists. split; [|done]. apply to_float_valid.
  - destruct H1 as (dbh & th & a & b & c & Hrun).
    apply (Hgen _ _ Hrun). intros k r. unfold kozak1969_dibs.
    intros (Zr & _ & (Z2 & _ & [= <-])%result_bind_inv)%result_bind_inv.
    eexists. split; [|done]. apply to_float_valid.
  - destruct H1 as (dbh & th & a & b & c & d & e & f & g & h' & i & Hrun).
    apply (Hgen _ _ Hrun). intros k r. unfold kozak1988_dibs.
    intros (Zr & _ & (base & _ & (rel & _ & [= <-])%result_bind_inv)%result_bind_inv)
             %result_bind_inv.
    eexists. split; [|done]. apply to_float_valid.
  - destruct H1 as (dbh & th & a & b & c & d & e & Hrun).
    apply (Hgen _ _ Hrun). intros k r. unfold wensel_dibs.
    intros (Zr & _ & (q & _ & [= <-])%result_bind_inv)%result_bind_inv.
    eexists. split; [|done]. apply to_float_valid.
Qed.

(** C6, as stated, fails: the first item is a 32-bit integer.  For
    [dbh = 1e10] and [a = 1], [b = c = 0] the stored diameter is [1e10],
    its truncation is [10000000000], and the stored integer is [-2^31]. *)
Lemma produced_dibs_shape_fails :
  ∃ prof ds,
    kozak1969_heights (double_of_long 10000000000) (double_of_long 2) d_1 d_0 d_0
    = Ok prof
    ∧ prof !! 1 = Some ds
    ∧ SFtrunc (double_val (dib ds)) = Some 10000000000
    ∧ dib_int ds = -2147483648.
Proof.
  destruct (kozak1969_stores (double_of_long 10000000000) (double_of_long 2)
              d_1 d_0 d_0 1) as (prof & Hrun & Hds).
  { assert (c_int (to_float (double_of_long 2)) = 2) as -> by (vm_compute; reflexivity).
    lia. }
  eexists prof, _. split; [exact Hrun|]. split; [exact Hds|].
  split; vm_compute; reflexivity.
Qed.

(** C6 (amended): in every list stored by any of the four evaluators the
    third item is the second divided by [12.0] in binary64, and the first
    is the second truncated toward zero when the second is finite and its
    truncation lies in [-2^31, 2^31); otherwise the first item is
    [-2^31]. *)
Theorem produced_dibs_shape {L : Libm} (prof : profile) (h : Z) (ds : dibs) :
  produced prof → prof !! h = Some ds →
  dib_int ds = int_of_dib (dib ds) ∧ dib_converted ds = dquot (dib ds) d_12.
Proof.
  intros Hprod Hds.
  destruct (produced_entry prof h ds Hprod Hds) as (x & Hv & ->).
  by apply make_dibs_shape.
Qed.

(** The example of the specification: the list stored at [h = 30] is
    [[18, 18.5236..., 1.5436...]]. *)
Lemma produced_dibs_shape_example :
  ∃ prof ds,
    kozak1969_heights (double_of_long 15) (double_of_long 60) (double_of_long 2)
      (double_of_long (-1)) (decimal 1 10) = Ok prof
    ∧ prof !! 30 = Some ds
    ∧ (dib_int ds = int_of_dib (dib ds) ∧ dib_converted ds = dquot (dib ds) d_12)
    ∧ dib_int ds = 18.
Proof.
  destruct (kozak1969_stores (double_of_long 15) (double_of_long 60) (double_of_long 2)
              (double_of_long (-1)) (decimal 1 10) 30) as (prof & Hrun & Hds).
  { assert (c_int (to_float (double_of_long 60)) = 60) as -> by (vm_compute; reflexivity).
    lia. }
  eexists prof, _. split; [exact Hrun|]. split; [exact Hds|]. split.
  - apply (produced_dibs_shape (L := mini_libm) prof 30); [|exact Hds].
    right; left. by eexists _, _, _, _, _.
  - vm_compute. reflexivity.
Defined.

(** ** The unit profile of Kozak-1969 *)

Lemma fadd_zero_product x y z :
  is_finite (float_val x) = true → SF_is_zero (float_val y) = false →
  SF_is_zero (float_val z) = true →
  (y + z * x)%flt = y.
Proof.
  intros Hx Hy Hz. destruct y as [y], z as [z]. unfold fadd, fmul. cbn [float_val] in *.
  f_equal. apply SFadd_zero_r; [|done].
  destruct (SF_is_zero_inv z Hz) as [s ->]. by apply SFmul_zero_l.
Qed.

(** With [a = 1] and [b = c = 0] the radicand is exactly [1] and the
    diameter is [dbh], as received. *)
Lemma kozak1969_dib_unit dbh th h :
  valid_binary 24 128 (float_val dbh) = true → 1 ≤ h ≤ c_int th →
  kozak1969_dib dbh th f_1 f_0 f_0 h = dbh.
Proof.
  intros Hv Hh. unfold kozak1969_dib. cbv zeta.
  rewrite (fadd_zero_product _ f_1 f_0 (relative_height_finite th h Hh)) by done.
  rewrite (fadd_zero_product _ f_1 f_0 (relative_height_sq_finite th h Hh)) by done.
  replace (to_double f_1) with d_1 by (vm_compute; reflexivity).
  replace (dsqrt d_1) with d_1 by (vm_compute; reflexivity).
  rewrite dmul_one by apply to_double_valid. by apply to_float_to_double.
Qed.

(** C9, as stated, fails: the diameter is received as a binary32 number.
    For [dbh = 0.1] the stored diameter is [0.100000001490116...], above
    the [dbh] of the call. *)
Lemma kozak1969_unit_profile_fails :
  ∃ prof ds,
    kozak1969_heights (decimal 1 10) (double_of_long 2) d_1 d_0 d_0 = Ok prof
    ∧ prof !! 1 = Some ds
    ∧ is_positive (decimal 1 10)
    ∧ SFcompare (double_val (dib ds)) (double_val (decimal 1 10)) = Some Gt.
Proof.
  destruct (kozak1969_stores (decimal 1 10) (double_of_long 2) d_1 d_0 d_0 1)
    as (prof & Hrun & Hds).
  { assert (c_int (to_float (double_of_long 2)) = 2) as -> by (vm_compute; reflexivity).
    lia. }
  eexists prof, _. split; [exact Hrun|]. split; [exact Hds|].
  split; vm_compute; reflexivity.
Qed.

(** C9 (amended): with [a = 1], [b = 0] and [c = 0] every entry of the
    profile of [kozak1969_heights] has a diameter equal to [dbh] rounded
    to binary32, whatever [dbh] and [total_height]. *)
Theorem kozak1969_unit_profile (dbh total_height : double) (prof : profile)
    (h : Z) (ds : dibs) :
  kozak1969_heights dbh total_height d_1 d_0 d_0 = Ok prof →
  prof !! h = Some ds →
  dib ds = to_double (to_float dbh).
Proof.
  intros Hrun Hds.
  destruct (heights_entry _ _ _ _ _ Hrun Hds) as [Hh Hbody].
  rewrite kozak1969_dibs_formula in Hbody by done.
  injection Hbody as <-.
  change (to_float d_1) with f_1. change (to_float d_0) with f_0.
  rewrite kozak1969_dib_unit; [done | apply to_float_valid | done].
Qed.

Lemma kozak1969_unit_profile_example :
  ∃ prof ds,
    kozak1969_heights (decimal 1 10) (double_of_long 2) d_1 d_0 d_0 = Ok prof
    ∧ prof !! 2 = Some ds
    ∧ dib ds = Double (S754_finite false 7205759511166976 (-56)).
Proof.
  destruct (kozak1969_stores (decimal 1 10) (double_of_long 2) d_1 d_0 d_0 2)
    as (prof & Hrun & Hds).
  { assert (c_int (to_float (double_of_long 2)) = 2) as -> by (vm_compute; reflexivity).
    lia. }
  eexists prof, _. split; [exact Hrun|]. split; [exact Hds|].
  rewrite (kozak1969_unit_profile _ _ _ _ _ Hrun Hds). vm_compute. reflexivity.
Defined.

(** ** Kozak-1988 *)

Lemma kozak1988_stores {L : Libm} dbh th a b c d e f g h i k :
  1 ≤ k ≤ c_int (to_float th) →
  SF_is_zero (double_val (kozak1988_divisor (to_float d))) = false →
  ∃ prof,
    kozak1988_heights dbh th a b c d e f g h i = Ok prof
    ∧ prof !! k
      = Some (make_dibs (kozak1988_dib (to_float dbh) (to_float th) (to_float a)
                           (to_float b) (to_float c) (to_float d) (to_float e)
                           (to_float f) (to_float g) (to_float h) (to_float i) k)).
Proof.
  intros Hk Hd. apply heights_stores; [|done|by apply kozak1988_dibs_formula].
  intros k' Hk'. eexists. by apply kozak1988_dibs_formula.
Qed.

(** C4, as stated, fails, whatever the C library.  For
    [total_height = 3e9] the 32-bit height is [-2^31] and the profile is
    empty; and [d = 1.00000001] is received as [1.0], so that with
    [pow (1, 0.5) = 1] the divisor [1 - d^0.5] is zero and the call
    raises. *)
Lemma kozak1988_heights_dib_fails :
  (SFfloor (double_val (double_of_long 3000000000)) = Some 3000000000
   ∧ ∀ L : Libm,
       kozak1988_heights (double_of_long 10) (double_of_long 3000000000)
         d_1 d_1 d_1 (double_of_long 4) d_1 d_1 d_1 d_1 d_1 = Ok ∅)
  ∧ (SFltb (double_val d_1) (double_val (decimal 100000001 100000000)) = true
     ∧ ∀ L : Libm,
         c_pow d_1 d_0_5 = d_1 →
         kozak1988_heights (double_of_long 10) (double_of_long 50)
           d_1 d_1 d_1 (decimal 100000001 100000000) d_1 d_1 d_1 d_1 d_1
         = ZeroDivisionError).
Proof.
  split; (split; [vm_compute; reflexivity|]).
  - intros L. apply heights_empty.
    assert (c_int (to_float (double_of_long 3000000000)) = INT_MIN) as ->
      by (vm_compute; reflexivity).
    by vm_compute.
  - intros L Hpow. apply (heights_raise _ _ 1).
    + assert (c_int (to_float (double_of_long 50)) = 50) as -> by (vm_compute; reflexivity).
      lia.
    + apply kozak1988_dibs_raise.
      * assert (c_int (to_float (double_of_long 50)) = 50) as -> by (vm_compute; reflexivity).
        lia.
      * unfold kozak1988_divisor.
        replace (to_double (to_float (decimal 100000001 100000000))) with d_1
          by (vm_compute; reflexivity).
        rewrite Hpow. vm_compute. reflexivity.
Qed.

(** C4 (amended): when the divisor [1 - d^0.5], computed in binary64 from
    [d] rounded to binary32, is not zero, [kozak1988_heights] returns a
    profile that stores, at every height [k] of the loop, the diameter of
    the Kozak-1988 formula evaluated on the arguments rounded to binary32,
    in the arithmetic of the program and with the [0.001] offset inside
    the logarithm. *)
Theorem kozak1988_heights_dib {L : Libm} (dbh total_height a b c d e f g h i : double)
    (k : Z) :
  1 ≤ k ≤ c_int (to_float total_height) →
  SF_is_zero (double_val (kozak1988_divisor (to_float d))) = false →
  ∃ prof ds,
    kozak1988_heights dbh total_height a b c d e f g h i = Ok prof
    ∧ prof !! k = Some ds
    ∧ dib ds
      = to_double (kozak1988_dib (to_float dbh) (to_float total_height) (to_float a)
                     (to_float b) (to_float c) (to_float d) (to_float e) (to_float f)
                     (to_float g) (to_float h) (to_float i) k).
Proof.
  intros Hk Hd.
  destruct (kozak1988_stores dbh total_height a b c d e f g h i k Hk Hd)
    as (prof & Hrun & Hds).
  by eexists prof, _.
Qed.

(** A run with every coefficient in play: [dbh = 10], [total_height = 50],
    [(a, ..., i) = (0.9, 0.95, 1.001, 0.3, 0.5, 0.1, 0.2, 0.05, 0.3)]; at
    height 25 the stored diameter is [6.98997...]. *)
Lemma kozak1988_heights_dib_example :
  (1 ≤ 25 ≤ c_int (to_float (double_of_long 50))
   ∧ SF_is_zero
       (double_val (kozak1988_divisor (L := mini_libm) (to_float (decimal 3 10))))
     = false)
  ∧ ∃ prof ds,
      kozak1988_heights (L := mini_libm) (double_of_long 10) (double_of_long 50)
        (decimal 9 10) (decimal 95 100) (decimal 1001 1000) (decimal 3 10)
        (decimal 5 10) (decimal 1 10) (decimal 2 10) (decimal 5 100) (decimal 3 10)
      = Ok prof
      ∧ prof !! 25 = Some ds
      ∧ dib ds = Double (S754_finite false 7870010563231744 (-50)).
Proof.
  assert (1 ≤ 25 ≤ c_int (to_float (double_of_long 50))) as Hk.
  { assert (c_int (to_float (double_of_long 50)) = 50) as -> by (vm_compute; reflexivity).
    lia. }
  assert (SF_is_zero
            (double_val (kozak1988_divisor (L := mini_libm) (to_float (decimal 3 10))))
          = false) as Hd by (vm_compute; reflexivity).
  split; [exact (conj Hk Hd)|].
  destruct (kozak1988_heights_dib (L := mini_libm) (double_of_long 10)
              (double_of_long 50) (decimal 9 10) (decimal 95 100) (decimal 1001 1000)
              (decimal 3 10) (decimal 5 10) (decimal 1 10) (decimal 2 10)
              (decimal 5 100) (decimal 3 10) 25 Hk Hd)
    as (prof & ds & Hrun & Hds & Hdib).
  exists prof, ds. split; [exact Hrun|]. split; [exact Hds|].
  rewrite Hdib. vm_compute. reflexivity.
Defined.

(** ** Wensel *)

Lemma wensel_stores {L : Libm} dbh th a b c d e h :
  1 ≤ h ≤ c_int (to_float th) →
  SF_is_zero (float_val (wensel_divisor (to_float th))) = false →
  SF_is_zero
    (float_val (wensel_X (to_float dbh) (to_float th) (to_float c) (to_float d)
                  (to_float e))) = false →
  ∃ prof,
    wensel_heights dbh th a b c d e = Ok prof
    ∧ prof !! h
      = Some (make_dibs (wensel_dib (to_float dbh) (to_float th) (to_float a)
                           (to_float b) (to_float c) (to_float d) (to_float e) h)).
Proof.
  intros Hh Hd HX. apply heights_stores; [|done|by apply wensel_dibs_formula].
  intros k Hk. eexists. by apply wensel_dibs_formula.
Qed.

(** C5, as stated, fails, whatever the C library.
    [total_height = 1.00000001] is above [1] but is received as [1.0]:
    the divisor [total_height - 1] is zero and the call raises; and with
    [c = -10], [d = 1], [dbh = 10], [e = 0] the term [X] is zero and the
    call raises. *)
Lemma wensel_heights_dib_fails :
  (SFltb (double_val d_1) (double_val (decimal 100000001 100000000)) = true
   ∧ ∀ L : Libm,
       wensel_heights (double_of_long 10) (decimal 100000001 100000000)
         d_1 d_1 d_1 d_1 d_1 = ZeroDivisionError)
  ∧ (SFfloor (double_val (double_of_long 50)) = Some 50
     ∧ ∀ L : Libm,
         wensel_heights (double_of_long 10) (double_of_long 50)
           d_1 (double_of_long 2) (double_of_long (-10)) d_1 d_0 = ZeroDivisionError).
Proof.
  split; (split; [vm_compute; reflexivity|]).
  - intros L. apply (heights_raise _ _ 1).
    + assert (c_int (to_float (decimal 100000001 100000000)) = 1) as ->
        by (vm_compute; reflexivity).
      lia.
    + apply wensel_dibs_raise. left. vm_compute. reflexivity.
  - intros L. apply (heights_raise _ _ 1).
    + assert (c_int (to_float (double_of_long 50)) = 50) as -> by (vm_compute; reflexivity).
      lia.
    + apply wensel_dibs_raise. right. vm_compute. reflexivity.
Qed.

(** C5 (amended): when neither the divisor [total_height - 1] nor the term
    [X = c + d*dbh + e*total_height], both computed by the program from the
    arguments rounded to binary32, is zero, [wensel_heights] returns a
    profile that stores, at every height [h] of the loop, the diameter of
    the Wensel formula in the arithmetic of the program, with
    [Z = (h - 1) / (total_height - 1)]. *)
Theorem wensel_heights_dib {L : Libm} (dbh total_height a b c d e : double) (h : Z) :
  1 ≤ h ≤ c_int (to_float total_height) →
  SF_is_zero (float_val (wensel_divisor (to_float total_height))) = false →
  SF_is_zero
    (float_val (wensel_X (to_float dbh) (to_float total_height) (to_float c)
                  (to_float d) (to_float e))) = false →
  ∃ prof ds,
    wensel_heights dbh total_height a b c d e = Ok prof
    ∧ prof !! h = Some ds
    ∧ dib ds
      = to_double (wensel_dib (to_float dbh) (to_float total_height) (to_float a)
                     (to_float b) (to_float c) (to_float d) (to_float e) h).
Proof.
  intros Hh Hd HX.
  destruct (wensel_stores dbh total_height a b c d e h Hh Hd HX) as (prof & Hrun & Hds).
  by eexists prof, _.
Qed.

(** A run with every coefficient in play: [dbh = 20], [total_height = 80],
    [(a, b, c, d, e) = (0.8, 1.5, 2, 0.1, 0.01)]; at height 40 the stored
    diameter is [10.14327...]. *)
Lemma wensel_heights_dib_example :
  (1 ≤ 40 ≤ c_int (to_float (double_of_long 80))
   ∧ SF_is_zero (float_val (wensel_divisor (to_float (double_of_long 80)))) = false
   ∧ SF_is_zero
       (float_val (wensel_X (to_float (double_of_long 20)) (to_float (double_of_long 80))
                     (to_float (double_of_long 2)) (to_float (decimal 1 10))
                     (to_float (decimal 1 100)))) = false)
  ∧ ∃ prof ds,
      wensel_heights (L := mini_libm) (double_of_long 20) (double_of_long 80)
        (decimal 8 10) (decimal 15 10) (double_of_long 2) (decimal 1 10) (decimal 1 100)
      = Ok prof
      ∧ prof !! 40 = Some ds
      ∧ dib ds = Double (S754_finite false 5710155261935616 (-49)).
Proof.
  assert (1 ≤ 40 ≤ c_int (to_float (double_of_long 80))) as Hh.
  { assert (c_int (to_float (double_of_long 80)) = 80) as -> by (vm_compute; reflexivity).
    lia. }
  assert (SF_is_zero (float_val (wensel_divisor (to_float (double_of_long 80)))) = false)
    as Hd by (vm_compute; reflexivity).
  assert (SF_is_zero
            (float_val (wensel_X (to_float (double_of_long 20))
                          (to_float (double_of_long 80))
                          (to_float (double_of_long 2)) (to_float (decimal 1 10))
                          (to_float (decimal 1 100)))) = false)
    as HX by (vm_compute; reflexivity).
  split; [exact (conj Hh (conj Hd HX))|].
  destruct (wensel_heights_dib (L := mini_libm) (double_of_long 20) (double_of_long 80)
              (decimal 8 10) (decimal 15 10) (double_of_long 2) (decimal 1 10)
              (decimal 1 100) 40 Hh Hd HX)
    as (prof & ds & Hrun & Hds & Hdib).
  exists prof, ds. split; [exact Hrun|]. split; [exact Hds|].
  rewrite Hdib. vm_compute. reflexivity.
Defined.

(** ** The base of the Wensel profile *)

Lemma dmul_zero_l x y :
  SF_is_zero (double_val x) = true → is_finite (double_val y) = true →
  SF_is_zero (double_val (x * y)%dbl) = true.
Proof.
  intros Hx Hy. destruct (SF_is_zero_inv _ Hx) as [s Hs].
  unfold dmul. rewrite Hs. by apply SFmul_zero_l.
Qed.

Lemma dmul_zero_r x y :
  is_finite (double_val x) = true → SF_is_zero (double_val y) = true →
  SF_is_zero (double_val (x * y)%dbl) = true.
Proof.
  intros Hx Hy. destruct (SF_is_zero_inv _ Hy) as [s Hs].
  unfold dmul. rewrite Hs. by apply SFmul_zero_r.
Qed.

Lemma dsub_zero_r x y :
  SF_is_zero (double_val x) = false → SF_is_zero (double_val y) = true →
  (x - y)%dbl = x.
Proof.
  intros Hx Hy. destruct x as [x]. unfold dsub. cbn [double_val] in *.
  f_equal. by apply SFsub_zero_r.
Qed.

Lemma wensel_X_valid dbh th c d e :
  valid_binary 24 128 (float_val dbh) = true →
  valid_binary 24 128 (float_val th) = true →
  valid_binary 24 128 (float_val c) = true →
  valid_binary 24 128 (float_val d) = true →
  valid_binary 24 128 (float_val e) = true →
  valid_binary 24 128 (float_val (wensel_X dbh th c d e)) = true.
Proof.
  intros. unfold wensel_X. repeat first [apply fadd_valid | apply fmul_valid]; done.
Qed.

Lemma wensel_divisor_not_nan th :
  valid_binary 24 128 (float_val th) = true → is_finite (float_val th) = true →
  float_val (wensel_divisor th) ≠ S754_nan.
Proof.
  intros Hv Hf. unfold wensel_divisor. apply to_float_not_nan.
  unfold dsub. cbn [double_val]. apply SFsub_finite_not_nan; [apply fmt64| |done].
  by rewrite to_double_is_finite.
Qed.

(** At the first height the relative height is [0 / (total_height - 1)], a
    zero. *)
Lemma wensel_base_height th :
  valid_binary 24 128 (float_val th) = true → is_finite (float_val th) = true →
  SF_is_zero (float_val (wensel_divisor th)) = false →
  ∃ s, fquot (float_of_long (1 - 1)) (wensel_divisor th) = Float (S754_zero s).
Proof.
  intros Hv Hf Hd. pose proof (wensel_divisor_not_nan th Hv Hf) as Hnan.
  unfold fquot. change (float_val (float_of_long (1 - 1))) with (S754_zero false).
  destruct (float_val (wensel_divisor th)) as [s|s| |s m e]; try done; by eexists.
Qed.

(** Under the conditions of the theorem below, the formula at the first
    height reduces to [dbh * a]. *)
Lemma wensel_dib_base {L : Libm} dbh th a b c d e :
  valid_binary 24 128 (float_val th) = true → is_finite (float_val th) = true →
  valid_binary 24 128 (float_val a) = true →
  valid_binary 24 128 (float_val (wensel_X dbh th c d e)) = true →
  SF_is_zero (float_val (wensel_divisor th)) = false →
  is_finite (float_val (wensel_X dbh th c d e)) = true →
  SF_is_zero (float_val a) = false →
  (∀ s, SF_is_zero (float_val (c_powf (Float (S754_zero s)) b)) = true) →
  is_finite (double_val (d_1 - c_exp (to_double (fquot a (wensel_X dbh th c d e))))) = true →
  SF_is_zero (double_val (c_log d_1)) = true →
  wensel_dib dbh th a b c d e 1 = to_float (to_double dbh * to_double a).
Proof.
  intros Hvth Hfth Hva HvX Hd HfX Ha Hpow Hexp Hlog.
  unfold wensel_dib. cbv zeta.
  destruct (wensel_base_height th Hvth Hfth Hd) as [s ->].
  set (X := wensel_X dbh th c d e) in *.
  set (w := (d_1 - c_exp (to_double (fquot a X)))%dbl) in *.
  assert (SF_is_zero (double_val (to_double (c_powf (Float (S754_zero s)) b) * w)%dbl) = true)
    as Hpw.
  { apply dmul_zero_l; [|done]. specialize (Hpow s).
    destruct (c_powf (Float (S754_zero s)) b) as [p]. cbn [float_val] in Hpow.
    by destruct (SF_is_zero_inv p Hpow) as [s' ->]. }
  rewrite (dsub_zero_r d_1 _ eq_refl Hpw).
  assert (SF_is_zero (double_val (to_double X * c_log d_1)%dbl) = true) as HXl.
  { apply dmul_zero_r; [|done]. by rewrite to_double_is_finite. }
  rewrite (dsub_zero_r (to_double a)); [done| |done].
  by rewrite to_double_is_zero.
Qed.




(** * Further properties of the evaluators *)

(** X1: [kozak1988_heights] raises [ZeroDivisionError] exactly when the
    loop runs (the 32-bit height is at least 1) and the divisor
    [1 - d^0.5], computed in binary64 from [d] rounded to binary32, is
    zero; on every other input it returns a profile. *)
Theorem kozak1988_raises_iff {L : Libm} (dbh total_height a b c d e f g h i : double) :
  kozak1988_heights dbh total_height a b c d e f g h i = ZeroDivisionError
  ↔ 1 ≤ c_int (to_float total_height)
    ∧ SF_is_zero (double_val (kozak1988_divisor (to_float d))) = true.
Proof.
  split.
  - intros Hraise.
    destruct (Z_lt_le_dec (c_int (to_float total_height)) 1) as [Hlt|Hge].
    { unfold kozak1988_heights in Hraise. by rewrite heights_empty in Hraise. }
    split; [done|].
    destruct (SF_is_zero (double_val (kozak1988_divisor (to_float d)))) eqn:Hd; [done|].
    destruct (kozak1988_stores dbh total_height a b c d e f g h i 1 ltac:(lia) Hd)
      as (prof & Hrun & _).
    congruence.
  - intros [Hth Hd]. apply (heights_raise _ _ 1); [lia|].
    apply kozak1988_dibs_raise; [lia|done].
Qed.

(** X2: [wensel_heights] raises [ZeroDivisionError] exactly when the loop
    runs and one of its two divisors, computed by the program from the
    arguments rounded to binary32, is zero: [total_height - 1] or
    [X = c + d*dbh + e*total_height]. *)
Theorem wensel_raises_iff {L : Libm} (dbh total_height a b c d e : double) :
  wensel_heights dbh total_height a b c d e = ZeroDivisionError
  ↔ 1 ≤ c_int (to_float total_height)
    ∧ (SF_is_zero (float_val (wensel_divisor (to_float total_height))) = true
       ∨ SF_is_zero
           (float_val (wensel_X (to_float dbh) (to_float total_height) (to_float c)
                         (to_float d) (to_float e))) = true).
Proof.
  split.
  - intros Hraise.
    destruct (Z_lt_le_dec (c_int (to_float total_height)) 1) as [Hlt|Hge].
    { unfold wensel_heights in Hraise. by rewrite heights_empty in Hraise. }
    split; [done|].
    destruct (SF_is_zero (float_val (wensel_divisor (to_float total_height)))) eqn:Hd;
      [by left|].
    destruct (SF_is_zero
                (float_val (wensel_X (to_float dbh) (to_float total_height) (to_float c)
                              (to_float d) (to_float e)))) eqn:HX; [by right|].
    destruct (wensel_stores dbh total_height a b c d e 1 ltac:(lia) Hd HX)
      as (prof & Hrun & _).
    congruence.
  - intros [Hth Hzero]. apply (heights_raise _ _ 1); [lia|].
    by apply wensel_dibs_raise.
Qed.

(** X3: [czaplewski_heights] and [kozak1969_heights] never raise, whatever
    the arguments: their only divisors are [total_height] and its square,
    and the loop runs only when [total_height >= 1]. *)
Theorem sqrt_models_never_raise :
  (∀ dbh th a b c d e f,
      czaplewski_heights dbh th a b c d e f ≠ ZeroDivisionError)
  ∧ (∀ dbh th a b c, kozak1969_heights dbh th a b c ≠ ZeroDivisionError).
Proof.
  split.
  - intros dbh th a b c d e f.
    destruct (czaplewski_returns dbh th a b c d e f) as [prof ->]. done.
  - intros dbh th a b c.
    destruct (kozak1969_returns dbh th a b c) as [prof ->]. done.
Qed.

(** X4: whatever evaluator returned it, a profile holds the integer height
    [k] exactly when [1 <= k <= top_height], where [top_height] is the
    32-bit conversion of [total_height] rounded to binary32, and it has
    [max (0, top_height)] entries. *)
Theorem produced_for_keys_size {L : Libm} (total_height : double) (prof : profile) :
  produced_for total_height prof →
  (∀ k : Z, k ∈ dom prof ↔ 1 ≤ k ≤ c_int (to_float total_height))
  ∧ size prof = Z.to_nat (c_int (to_float total_height)).
Proof.
  intros Hprod. pose proof (produced_for_keys _ _ Hprod) as Hkeys.
  split; [exact Hkeys | by apply keys_upto_size].
Qed.

(** A height of [2.99999999] is received as [3.0]: three entries. *)
Lemma produced_for_keys_size_example :
  ∃ prof,
    kozak1969_heights (double_of_long 10) (decimal 299999999 100000000) d_1 d_0 d_0
    = Ok prof
    ∧ (∀ k : Z, k ∈ dom prof ↔ 1 ≤ k ≤ 3)
    ∧ size prof = 3%nat.
Proof.
  destruct (kozak1969_returns (double_of_long 10) (decimal 299999999 100000000)
              d_1 d_0 d_0) as [prof Hrun].
  exists prof. split; [exact Hrun|].
  assert (produced_for (L := mini_libm) (decimal 299999999 100000000) prof) as Hprod.
  { right; left. by exists (double_of_long 10), d_1, d_0, d_0. }
  pose proof (produced_for_keys_size (L := mini_libm) _ _ Hprod) as Hks.
  assert (c_int (to_float (decimal 299999999 100000000)) = 3) as Htop
    by (vm_compute; reflexivity).
  rewrite Htop in Hks. exact Hks.
Defined.

(** X15: every stored diameter is a binary32 number: rounding it to
    binary32 and converting back returns it. *)
Theorem stored_dib_binary32 {L : Libm} (prof : profile) (h : Z) (ds : dibs) :
  produced prof → prof !! h = Some ds →
  to_double (to_float (dib ds)) = dib ds.
Proof.
  intros Hprod Hds.
  destruct (produced_entry prof h ds Hprod Hds) as (x & Hv & ->).
  cbn [dib make_dibs]. by rewrite to_float_to_double.
Qed.

Lemma stored_dib_binary32_example :
  ∃ prof ds,
    kozak1969_heights (decimal 1 10) (double_of_long 2) d_1 d_0 d_0 = Ok prof
    ∧ prof !! 1 = Some ds
    ∧ to_double (to_float (dib ds)) = dib ds
    ∧ dib ds ≠ decimal 1 10.
Proof.
  destruct (kozak1969_stores (decimal 1 10) (double_of_long 2) d_1 d_0 d_0 1)
    as (prof & Hrun & Hds).
  { assert (c_int (to_float (double_of_long 2)) = 2) as -> by (vm_compute; reflexivity).
    lia. }
  eexists prof, _. split; [exact Hrun|]. split; [exact Hds|]. split.
  - apply (stored_dib_binary32 (L := mini_libm) prof 1); [|exact Hds].
    right; left. by eexists _, _, _, _, _.
  - vm_compute. discriminate.
Defined.

(** X16: the height of the loop is at most [2^31 - 128], the largest
    binary32 number below [2^31]: the bound [top_height + 1] of the range
    does not overflow a 32-bit integer. *)
Theorem top_height_no_overflow (total_height : double) :
  - 2 ^ 31 ≤ c_int (to_float total_height) ≤ 2 ^ 31 - 128.
Proof.
  pose proof (to_float_valid total_height) as Hv.
  destruct (Z_lt_le_dec (c_int (to_float total_height)) 1) as [Hlt|Hge].
  - split; [|lia]. unfold c_int, INT_MIN.
    destruct (float_val (to_float total_height)) as [s|s| |s m e]; try lia.
    destruct ((- 2 ^ 31 <=? (if s then - Z.shiftl (Zpos m) e else Z.shiftl (Zpos m) e))
              && ((if s then - Z.shiftl (Zpos m) e else Z.shiftl (Zpos m) e) <? 2 ^ 31))
      eqn:Hr; [|lia].
    apply andb_true_iff in Hr as [Hr _]. apply Z.leb_le in Hr. exact Hr.
  - destruct (c_int_ge_1 _ Hge) as (m & e & Hx & -> & Hlt & Hmag).
    rewrite Hx in Hv. simpl in Hv. apply bounded_float in Hv as (Hd & He & _).
    pose proof (Zdigits2_pos (Zpos m) ltac:(lia)) as Hd0.
    assert (Zpos m < 2 ^ 24) as Hm by (apply Zdigits2_lt_pow2; lia).
    pose proof (shiftl_pos m e) as Ht. split; [lia|].
    destruct (Z_le_gt_dec e 7) as [He7|He7].
    + assert (Z.shiftl (Zpos m) e <= Zpos m * 2 ^ 7); [|lia].
      destruct (Z_le_gt_dec 0 e) as [He0|He0].
      * rewrite Z.shiftl_mul_pow2 by done.
        pose proof (Z.pow_le_mono_r 2 e 7 ltac:(lia) ltac:(lia)). nia.
      * rewrite <- Z.shiftr_opp_r, Z.shiftr_div_pow2 by lia.
        pose proof (pow2_pos (- e) ltac:(lia)).
        assert (Zpos m / 2 ^ (- e) <= Zpos m)
          by (apply Z.div_le_upper_bound; nia).
        lia.
    + rewrite Z.shiftl_mul_pow2 in * by lia.
      assert (Zpos m < 2 ^ (31 - e)) as Hm'.
      { apply Zdigits2_lt_pow2; lia. }
      pose proof (pow2_pos e ltac:(lia)).
      assert (2 ^ 31 = 2 ^ (31 - e) * 2 ^ e) as Hsplit.
      { rewrite <- Z.pow_add_r by lia. f_equal. lia. }
      pose proof (Z.pow_le_mono_r 2 8 e ltac:(lia) ltac:(lia)) as H8.
      change (2 ^ 8) with 256 in H8. nia.
Qed.
